(** * Aegis common schema: access decisions, redaction and banner aggregation

    A shallow embedding of [aegis_common_schema/base.py],
    [aegis_common_schema/policy_obligations.py] and
    [aegis_common_schema/access_control_engine.py], followed by the
    properties of the specification that concern them.

    Conventions of the embedding:
    - a Python [str] is a [string], read as a sequence of code points
      below 256; Python compares strings code point by code point, which
      is [String.compare];
    - a Python [int] is a [Z];
    - [set(xs)] is a [gset]; [sorted(s, key=k)] is a sort of the elements
      of [s], whose result does not depend on the order in which the set
      is iterated whenever [k] is injective (lemma [sorted_unique]);
    - the values drawn by default factories ([uuid4()], [utcnow()]) are
      explicit arguments of the function that constructs the object. *)

From Stdlib Require Import ZArith Ascii String DecimalString.
From stdpp Require Import base decidable list sorting gmap strings countable finite.

#[local] Set Warnings "-register-all,-clear-no-such-hyp".
#[local] Open Scope string_scope.

(** ** Strings as Python sees them *)

Module PyStr.

(** [s1 <= s2] on [str]: lexicographic on code points. *)
Definition le (s1 s2 : string) : Prop := String.leb s1 s2 = true.

#[global] Instance le_dec : RelDecision le.
Proof. intros s1 s2. unfold le. apply _. Defined.

(** [s.endswith(suffix)] *)
Definition endswith (s suffix : string) : bool :=
  let n := String.length s in
  let k := String.length suffix in
  (k <=? n)%nat && String.eqb (String.substring (n - k) k s) suffix.

(** [s[:-k]] for a non-negative [k]. *)
Definition drop_last (k : nat) (s : string) : string :=
  String.substring 0 (String.length s - k) s.

(** [s[:k]] *)
Definition take_first (k : nat) (s : string) : string :=
  String.substring 0 (Nat.min k (String.length s)) s.

(** [s[-k:]] for a positive [k]. *)
Definition take_last (k : nat) (s : string) : string :=
  let n := String.length s in
  String.substring (n - k) (Nat.min k n) s.

(** [sep.join(parts)] *)
Definition join (sep : string) (parts : list string) : string :=
  String.concat sep parts.

(** [s.split(sep)] for a one-character separator: the pieces between
    the occurrences of [sep], of which there is always at least one. *)
Fixpoint split_aux (sep : ascii) (acc : string) (s : string) : list string :=
  match s with
  | EmptyString => [String.rev acc]
  | String c s' =>
      if Ascii.eqb c sep then String.rev acc :: split_aux sep EmptyString s'
      else split_aux sep (String c acc) s'
  end.

Definition split (sep : ascii) (s : string) : list string :=
  split_aux sep EmptyString s.

End PyStr.

(** [sorted(xs, key=k)] where keys are compared as strings. *)
Definition key_le {A} (k : A → string) : relation A :=
  λ x y, PyStr.le (k x) (k y).

#[global] Instance key_le_dec {A} (k : A → string) : RelDecision (key_le k).
Proof. intros x y. unfold key_le. apply _. Defined.

Definition sorted {A} (k : A → string) (xs : list A) : list A :=
  merge_sort (key_le k) xs.

(** ** base.py *)

Inductive ClassificationLevel :=
  | UNCLASSIFIED | CUI | CONFIDENTIAL | SECRET | TOP_SECRET | TS_SCI.

Inductive Compartment :=
  | NOFORN | NOCONTRACT | HUMINT | SIGINT | IMINT | TALENT_KEYHOLE | RUFF.

Module Level.

(** [self.value]: the compact code of the level. *)
Definition value (l : ClassificationLevel) : string :=
  match l with
  | UNCLASSIFIED => "U"
  | CUI => "CUI"
  | CONFIDENTIAL => "C"
  | SECRET => "S"
  | TOP_SECRET => "TS"
  | TS_SCI => "TS//SCI"
  end.

(** The [mapping] dictionary of [numeric_value], as the association it
    is written as. *)
Definition mapping : list (string * Z) :=
  [("U", 0%Z); ("CUI", 1%Z); ("C", 2%Z); ("S", 3%Z); ("TS", 4%Z);
   ("TS//SCI", 5%Z)].

Fixpoint assoc (k : string) (m : list (string * Z)) : option Z :=
  match m with
  | [] => None
  | (k', v) :: m' => if String.eqb k' k then Some v else assoc k m'
  end.

(** [mapping[self.value]]; the lookup never misses (lemma
    [numeric_value_mapping]), so no [KeyError] is modelled. *)
Definition numeric_value (l : ClassificationLevel) : Z :=
  default 0%Z (assoc (value l) mapping).

Definition can_access (self required_level : ClassificationLevel) : bool :=
  (numeric_value required_level <=? numeric_value self)%Z.

#[global] Instance level_eq_dec : EqDecision ClassificationLevel.
Proof. solve_decision. Defined.

End Level.

Module Comp.

Definition value (c : Compartment) : string :=
  match c with
  | NOFORN => "NOFORN"
  | NOCONTRACT => "NOCONTRACT"
  | HUMINT => "HUMINT"
  | SIGINT => "SIGINT"
  | IMINT => "IMINT"
  | TALENT_KEYHOLE => "TK"
  | RUFF => "RUFF"
  end.

#[global] Instance compartment_eq_dec : EqDecision Compartment.
Proof. solve_decision. Defined.

Definition to_nat (c : Compartment) : nat :=
  match c with
  | NOFORN => 0 | NOCONTRACT => 1 | HUMINT => 2 | SIGINT => 3
  | IMINT => 4 | TALENT_KEYHOLE => 5 | RUFF => 6
  end.

Definition of_nat (n : nat) : option Compartment :=
  match n with
  | 0 => Some NOFORN | 1 => Some NOCONTRACT | 2 => Some HUMINT
  | 3 => Some SIGINT | 4 => Some IMINT | 5 => Some TALENT_KEYHOLE
  | 6 => Some RUFF | _ => None
  end.

#[global] Instance compartment_countable : Countable Compartment.
Proof.
  apply (inj_countable to_nat of_nat). intros []; reflexivity.
Defined.

End Comp.

(** ** Dynamically typed values

    What the code types as [Any]: request payloads, attribute maps and
    the argument of [json.dumps].  A [dict] keeps its entries in insertion
    order with one entry per key; payloads are trees, as the
    specification has them (no object is reachable along two paths). *)

Inductive pyval :=
  | VNone
  | VBool (b : bool)
  | VInt (z : Z)
  | VStr (s : string)
  | VList (items : list pyval)
  | VDict (entries : list (string * pyval)).

Module Dict.

(** [d.get(key)], also [d[key]] once [key in d] is known. *)
Fixpoint get (key : string) (d : list (string * pyval)) : option pyval :=
  match d with
  | [] => None
  | (k, v) :: d' => if String.eqb k key then Some v else get key d'
  end.

(** [d[key] = v]: the entry is overwritten in place when the key is
    present and appended otherwise. *)
Fixpoint set (key : string) (v : pyval) (d : list (string * pyval))
  : list (string * pyval) :=
  match d with
  | [] => [(key, v)]
  | (k, w) :: d' =>
      if String.eqb k key then (k, v) :: d' else (k, w) :: set key v d'
  end.

End Dict.

(** Truth value of an object, as [if x:] tests it. *)
Definition truthy (v : pyval) : bool :=
  match v with
  | VNone => false
  | VBool b => b
  | VInt z => negb (z =? 0)%Z
  | VStr s => negb (String.eqb s EmptyString)
  | VList items => match items with [] => false | _ => true end
  | VDict entries => match entries with [] => false | _ => true end
  end.

(** ** [json.dumps(payload, sort_keys=True, separators=(",", ":"))]

    The standard encoder with its default [ensure_ascii=True]: every
    character outside the printable ASCII range, the quote and the
    backslash are escaped. *)

Module Json.

Definition quote : ascii := "034"%char.
Definition backslash : ascii := "092"%char.

Definition hex_digit (n : N) : ascii :=
  match n with
  | 0%N => "0" | 1%N => "1" | 2%N => "2" | 3%N => "3" | 4%N => "4"
  | 5%N => "5" | 6%N => "6" | 7%N => "7" | 8%N => "8" | 9%N => "9"
  | 10%N => "a" | 11%N => "b" | 12%N => "c" | 13%N => "d" | 14%N => "e"
  | _ => "f"
  end%char.

(** The replacement of one character: the short escapes of
    [ESCAPE_DCT], then a four-digit lowercase [\u] escape for what is
    not between the space and the tilde. *)
Definition escape_char (c : ascii) : string :=
  let n := N_of_ascii c in
  if Ascii.eqb c backslash then String backslash (String backslash EmptyString)
  else if Ascii.eqb c quote then String backslash (String quote EmptyString)
  else if (n =? 8)%N then String backslash "b"
  else if (n =? 12)%N then String backslash "f"
  else if (n =? 10)%N then String backslash "n"
  else if (n =? 13)%N then String backslash "r"
  else if (n =? 9)%N then String backslash "t"
  else if (n <? 32)%N || (126 <? n)%N then
    String backslash
      (String "u" (String "0" (String "0"
         (String (hex_digit (n / 16)) (String (hex_digit (n mod 16)) EmptyString)))))
  else String c EmptyString.

Fixpoint escape (s : string) : string :=
  match s with
  | EmptyString => EmptyString
  | String c s' => escape_char c ++ escape s'
  end.

Definition encode_str (s : string) : string :=
  String quote (escape s ++ String quote EmptyString).

Definition encode_int (z : Z) : string :=
  NilZero.string_of_int (Z.to_int z).

Definition encode_item (kv : string * string) : string :=
  encode_str kv.1 ++ ":" ++ kv.2.

(** With [sort_keys=True] the items of a dictionary are written in the
    order of their keys. *)
Fixpoint dumps (v : pyval) : string :=
  match v with
  | VNone => "null"
  | VBool true => "true"
  | VBool false => "false"
  | VInt z => encode_int z
  | VStr s => encode_str s
  | VList items => "[" ++ PyStr.join "," (map dumps items) ++ "]"
  | VDict entries =>
      let written := map (λ kv : string * pyval, (kv.1, dumps kv.2)) entries in
      "{" ++ PyStr.join "," (map encode_item (sorted fst written)) ++ "}"
  end.

End Json.

(** ** policy_obligations.py *)

Definition UUID := N.
Definition datetime := Z.

Inductive ObligationType :=
  | MASK_FIELD | REDACT_PORTION | REQUIRE_MFA_STEP_UP | REQUIRE_APPROVAL
  | AUDIT_ACCESS | RESTRICT_EXPORT | RESTRICT_COPY | WATERMARK.

Inductive RedactionStrategy :=
  | MASK_WITH_BRACKETS | MASK_WITH_ASTERISKS | MASK_WITH_HASH
  | REMOVE_FIELD | TRUNCATE.

Inductive PolicyScope :=
  | GLOBAL | ROLE_BASED | ATTRIBUTE_BASED | RESOURCE_BASED.

(** [set(required).issubset(set(held))] *)
Definition issubset (required held : list Compartment) : bool :=
  bool_decide ((list_to_set required : gset Compartment) ⊆ list_to_set held).

(** [if xs:] for a list. *)
Definition nonempty {A} (xs : list A) : bool :=
  match xs with [] => false | _ => true end.

Module FieldRedactionRule.

Record t := {
  field_path : string;
  field_type : string;
  strategy : RedactionStrategy;
  required_clearance : option ClassificationLevel;
  required_compartments : list Compartment;
  description : option string;
  tags : list (string * string)
}.

Definition should_redact (self : t) (user_clearance : ClassificationLevel)
    (user_compartments : list Compartment) : bool :=
  let compartment_check :=
    if nonempty (required_compartments self) then
      if negb (issubset (required_compartments self) user_compartments)
      then true else false
    else false in
  match required_clearance self with
  | Some required =>
      if (Level.numeric_value user_clearance <? Level.numeric_value required)%Z
      then true else compartment_check
  | None => compartment_check
  end.

Definition apply_redaction (self : t) (value : pyval) : string :=
  match strategy self with
  | MASK_WITH_BRACKETS => "[REDACTED]"
  | MASK_WITH_ASTERISKS => "****"
  | MASK_WITH_HASH => "#####"
  | TRUNCATE =>
      match value with
      | VStr s =>
          if (6 <? String.length s)%nat
          then PyStr.take_first 3 s ++ "..." ++ PyStr.take_last 3 s
          else "[REDACTED]"
      | _ => "[REDACTED]"
      end
  | REMOVE_FIELD => "[REDACTED]"
  end.

End FieldRedactionRule.

Module PortionRedactionRule.

Record t := {
  portion_name : string;
  portion_marking : string;
  minimum_clearance : ClassificationLevel;
  required_compartments : list Compartment;
  strategy : RedactionStrategy;
  description : option string;
  tags : list (string * string)
}.

Definition should_redact (self : t) (user_clearance : ClassificationLevel)
    (user_compartments : list Compartment) : bool :=
  if (Level.numeric_value user_clearance
        <? Level.numeric_value (minimum_clearance self))%Z
  then true
  else if nonempty (required_compartments self) then
    if negb (issubset (required_compartments self) user_compartments)
    then true else false
  else false.

End PortionRedactionRule.

Module AccessObligation.

Record t := {
  obligation_id : UUID;
  obligation_type : ObligationType;
  description : string;
  triggered_when : string;
  action : string;
  action_params : list (string * pyval);
  created_at : datetime;
  created_by : option UUID
}.

End AccessObligation.

Module AccessDecisionObligation.

Record t := {
  obligation_type : ObligationType;
  resource_field : option string;
  redaction_strategy : option RedactionStrategy;
  reason : string
}.

End AccessDecisionObligation.

Module ClassificationPolicy.

Record t := {
  policy_name : string;
  policy_description : option string;
  field_redaction_rules : list FieldRedactionRule.t;
  portion_redaction_rules : list PortionRedactionRule.t;
  access_obligations : list AccessObligation.t;
  scope : PolicyScope;
  applicable_roles : list string;
  is_active : bool;
  is_enforced : bool;
  created_by : option UUID;
  last_modified_by : option UUID
}.


End ClassificationPolicy.

Module AccessDecision.

Record t := {
  decision_id : UUID;
  allowed : bool;
  reason : string;
  obligations : list AccessDecisionObligation.t;
  highest_classification : option ClassificationLevel;
  portion_markings : list string;
  decided_at : datetime;
  decided_by : string;
  user_clearance : ClassificationLevel;
  user_compartments : list Compartment;
  resource_classification : ClassificationLevel;
  resource_compartments : list Compartment
}.

End AccessDecision.

(** [max(xs, key=key, default=d)]: the first element whose key is
    greatest, or [d] for an empty list. *)
Fixpoint max_from {A} (key : A → Z) (best : A) (xs : list A) : A :=
  match xs with
  | [] => best
  | x :: xs' => max_from key (if (key best <? key x)%Z then x else best) xs'
  end.

Definition py_max {A} (key : A → Z) (d : A) (xs : list A) : A :=
  match xs with
  | [] => d
  | x :: xs' => max_from key x xs'
  end.

(** An entity handed to the aggregator.  The code reads three keys of a
    dictionary; a key that is absent or bound to [None] is [None] here.
    Classifications and compartments are members of their enumerations
    (a code is turned into its member by the enumeration's constructor,
    which rejects unknown codes before the aggregation proper). *)
Module Entity.

Record t := {
  classification : option ClassificationLevel;
  portion_markings : option (list string);
  compartments : option (list Compartment)
}.

End Entity.

Module ClassificationAggregationResult.

Record t := {
  highest_classification : ClassificationLevel;
  all_classifications : list ClassificationLevel;
  all_portion_markings : list string;
  all_compartments : list Compartment;
  computed_at : datetime;
  computed_from_entity_count : Z;
  signature : option string;
  signature_algorithm : string
}.

Definition with_signature (self : t) (sig : string) : t :=
  {| highest_classification := highest_classification self;
     all_classifications := all_classifications self;
     all_portion_markings := all_portion_markings self;
     all_compartments := all_compartments self;
     computed_at := computed_at self;
     computed_from_entity_count := computed_from_entity_count self;
     signature := Some sig;
     signature_algorithm := signature_algorithm self |}.

(** The dictionary that [compute_signature] serialises, its keys in the
    order the source writes them. *)
Definition signing_payload (self : t) : pyval :=
  VDict
    [("highest_classification", VStr (Level.value (highest_classification self)));
     ("all_portion_markings", VList (map VStr (sorted id (all_portion_markings self))));
     ("all_compartments",
      VList (map VStr (sorted id (map Comp.value (all_compartments self)))));
     ("count", VInt (computed_from_entity_count self))].

(** The state of the loop of [aggregate]. *)
Record acc := {
  classifications : list ClassificationLevel;
  portion_markings_set : gset string;
  compartments_set : gset Compartment
}.

Definition acc0 : acc :=
  {| classifications := []; portion_markings_set := ∅; compartments_set := ∅ |}.

(** One iteration of [for entity in entities]. *)
Definition visit (a : acc) (entity : Entity.t) : acc :=
  let cs :=
    match Entity.classification entity with
    | Some c => (classifications a ++ [c])%list
    | None => classifications a
    end in
  let pms :=
    match Entity.portion_markings entity with
    | Some ms =>
        if nonempty ms then portion_markings_set a ∪ list_to_set ms
        else portion_markings_set a
    | None => portion_markings_set a
    end in
  let comps :=
    match Entity.compartments entity with
    | Some xs =>
        if nonempty xs
        then foldl (λ s comp, s ∪ {[ comp ]}) (compartments_set a) xs
        else compartments_set a
    | None => compartments_set a
    end in
  {| classifications := cs; portion_markings_set := pms; compartments_set := comps |}.

Section Signing.

(** [hmac.new(key.encode(), msg.encode(), hashlib.sha256).hexdigest()],
    the primitive of the standard library, by key and message. *)
Variable hmac_sha256_hexdigest : string → string → string.

Definition compute_signature (self : t) (signing_key : string) : string :=
  let serialized := Json.dumps (signing_payload self) in
  hmac_sha256_hexdigest signing_key serialized.

Definition aggregate (now : datetime) (entities : list Entity.t)
    (signing_key : option string) : t :=
  let a := foldl visit acc0 entities in
  let highest := py_max Level.numeric_value UNCLASSIFIED (classifications a) in
  let result :=
    {| highest_classification := highest;
       all_classifications := classifications a;
       all_portion_markings := sorted id (elements (portion_markings_set a));
       all_compartments := sorted Comp.value (elements (compartments_set a));
       computed_at := now;
       computed_from_entity_count := Z.of_nat (length entities);
       signature := None;
       signature_algorithm := "hmac-sha256" |} in
  match signing_key with
  | Some key =>
      if negb (String.eqb key EmptyString)
      then with_signature result (compute_signature result key)
      else result
  | None => result
  end.

End Signing.

End ClassificationAggregationResult.

Module RedactionEngine.

Record t := { policy : ClassificationPolicy.t }.

(** The loop [for item in current[key]: changed |= f(item)], on a list
    whose elements [f] rewrites: the flag so far and the elements
    already visited. *)
Definition visit_items (f : pyval → bool * pyval) (items : list pyval)
  : bool * list pyval :=
  foldl (λ st item, let r := f item in (st.1 || r.1, (st.2 ++ [r.2])%list))
        (false, []) items.

(** [_set_path_redacted(current, parts, redacted_value)]: the returned
    flag and [current] after the call. *)
Fixpoint _set_path_redacted (parts : list string) (redacted_value : pyval)
    (current : pyval) : bool * pyval :=
  match parts with
  | [] => (false, current)
  | head :: tail =>
      if PyStr.endswith head "[*]" then
        let key := PyStr.drop_last 3 head in
        match current with
        | VDict d =>
            match Dict.get key d with
            | Some (VList items) =>
                let r := visit_items (_set_path_redacted tail redacted_value) items in
                (r.1, VDict (Dict.set key (VList r.2) d))
            | _ => (false, current)
            end
        | _ => (false, current)
        end
      else
        match current with
        | VDict d =>
            match Dict.get head d with
            | None => (false, current)
            | Some child =>
                match tail with
                | [] => (true, VDict (Dict.set head redacted_value d))
                | _ =>
                    let r := _set_path_redacted tail redacted_value child in
                    (r.1, VDict (Dict.set head r.2 d))
                end
            end
        | _ => (false, current)
        end
  end.

Definition redact_field (self : t) (data : pyval) (field_path : string)
    (user_clearance : ClassificationLevel)
    (user_compartments : list Compartment) : pyval :=
  foldl
    (λ data rule,
       if negb (String.eqb (FieldRedactionRule.field_path rule) field_path)
       then data
       else if negb (FieldRedactionRule.should_redact rule user_clearance
                       user_compartments)
       then data
       else
         let parts := PyStr.split "." field_path in
         let redacted_value := VStr (FieldRedactionRule.apply_redaction rule VNone) in
         (_set_path_redacted parts redacted_value data).2)
    data
    (ClassificationPolicy.field_redaction_rules (policy self)).

Definition field_obligation (rule : FieldRedactionRule.t)
  : AccessDecisionObligation.t :=
  {| AccessDecisionObligation.obligation_type := MASK_FIELD;
     AccessDecisionObligation.resource_field :=
       Some (FieldRedactionRule.field_path rule);
     AccessDecisionObligation.redaction_strategy :=
       Some (FieldRedactionRule.strategy rule);
     AccessDecisionObligation.reason := "Redaction rule applies" |}.

Definition portion_obligation (portion_rule : PortionRedactionRule.t)
  : AccessDecisionObligation.t :=
  {| AccessDecisionObligation.obligation_type := REDACT_PORTION;
     AccessDecisionObligation.resource_field :=
       Some (PortionRedactionRule.portion_name portion_rule);
     AccessDecisionObligation.redaction_strategy :=
       Some (PortionRedactionRule.strategy portion_rule);
     AccessDecisionObligation.reason := "Portion redaction rule applies" |}.

Definition compute_obligations (self : t)
    (user_clearance : ClassificationLevel)
    (user_compartments : list Compartment)
  : list AccessDecisionObligation.t :=
  let obligations : list AccessDecisionObligation.t := [] in
  let obligations :=
    foldl
      (λ obligations rule,
         if FieldRedactionRule.should_redact rule user_clearance user_compartments
         then (obligations ++ [field_obligation rule])%list
         else obligations)
      obligations
      (ClassificationPolicy.field_redaction_rules (policy self)) in
  foldl
    (λ obligations portion_rule,
       if PortionRedactionRule.should_redact portion_rule user_clearance
            user_compartments
       then (obligations ++ [portion_obligation portion_rule])%list
       else obligations)
    obligations
    (ClassificationPolicy.portion_redaction_rules (policy self)).

Definition apply_obligations (self : t) (data : pyval)
    (obligations : list AccessDecisionObligation.t)
    (user_clearance : ClassificationLevel)
    (user_compartments : list Compartment) : pyval :=
  foldl
    (λ data o,
       match AccessDecisionObligation.obligation_type o,
             AccessDecisionObligation.resource_field o with
       | MASK_FIELD, Some field =>
           if negb (String.eqb field EmptyString)
           then redact_field self data field user_clearance user_compartments
           else data
       | _, _ => data
       end)
    data obligations.

End RedactionEngine.

(** ** access_control_engine.py *)

(** What a call does: it returns a value or raises. *)
Inductive PyError := TypeError.

Inductive outcome (A : Type) :=
  | Returns (a : A)
  | Raises (e : PyError).
Arguments Returns {A} a.
Arguments Raises {A} e.

Module AccessControlEngine.

Record t := {
  policy : ClassificationPolicy.t;
  signing_key : option string;
  redaction_engine : RedactionEngine.t
}.

(** [AccessControlEngine(policy, signing_key)] *)
Definition init (policy : ClassificationPolicy.t) (signing_key : option string) : t :=
  {| policy := policy;
     signing_key := signing_key;
     redaction_engine := {| RedactionEngine.policy := policy |} |}.

(** [AccessDecision(allowed=..., reason=..., user_clearance=...,
    user_compartments=..., resource_classification=...,
    resource_compartments=...)]: the fields that are not passed take
    their defaults. *)
Definition decision_with_defaults (fresh : UUID) (now : datetime)
    (allowed : bool) (reason : string)
    (user_clearance : ClassificationLevel) (user_compartments : list Compartment)
    (resource_classification : ClassificationLevel)
    (resource_compartments : list Compartment) : AccessDecision.t :=
  {| AccessDecision.decision_id := fresh;
     AccessDecision.allowed := allowed;
     AccessDecision.reason := reason;
     AccessDecision.obligations := [];
     AccessDecision.highest_classification := None;
     AccessDecision.portion_markings := [];
     AccessDecision.decided_at := now;
     AccessDecision.decided_by := "access-control-engine";
     AccessDecision.user_clearance := user_clearance;
     AccessDecision.user_compartments := user_compartments;
     AccessDecision.resource_classification := resource_classification;
     AccessDecision.resource_compartments := resource_compartments |}.

(** What [for r in required_roles] iterates over: the elements of a
    list, the characters of a string, the keys of a dictionary; the
    other objects are not iterable. *)
Fixpoint chars (s : string) : list pyval :=
  match s with
  | EmptyString => []
  | String c s' => VStr (String c EmptyString) :: chars s'
  end.

Definition iterate (v : pyval) : outcome (list pyval) :=
  match v with
  | VList items => Returns items
  | VStr s => Returns (chars s)
  | VDict entries => Returns (map (λ kv, VStr kv.1) entries)
  | _ => Raises TypeError
  end.

(** [r in user_roles] for a list of strings. *)
Definition role_in (user_roles : list string) (r : pyval) : bool :=
  match r with
  | VStr s => bool_decide (s ∈ user_roles)
  | _ => false
  end.

Definition _check_need_to_know (self : t) (user_roles : list string)
    (resource_attrs : list (string * pyval)) : outcome bool :=
  if negb (nonempty resource_attrs) then Returns true
  else
    let required_roles := default VNone (Dict.get "required_roles" resource_attrs) in
    if truthy required_roles then
      match iterate required_roles with
      | Returns rs =>
          if negb (existsb (role_in user_roles) rs) then Returns false
          else Returns true
      | Raises e => Raises e
      end
    else Returns true.

Definition mfa_device_obligation : AccessDecisionObligation.t :=
  {| AccessDecisionObligation.obligation_type := REQUIRE_MFA_STEP_UP;
     AccessDecisionObligation.resource_field := None;
     AccessDecisionObligation.redaction_strategy := None;
     AccessDecisionObligation.reason :=
       "Device is untrusted; Secret+ data requires additional MFA" |}.

Definition mfa_missing_obligation : AccessDecisionObligation.t :=
  {| AccessDecisionObligation.obligation_type := REQUIRE_MFA_STEP_UP;
     AccessDecisionObligation.resource_field := None;
     AccessDecisionObligation.redaction_strategy := None;
     AccessDecisionObligation.reason := "Secret+ data requires MFA verification" |}.

Definition audit_obligation (resource_classification : ClassificationLevel)
  : AccessDecisionObligation.t :=
  {| AccessDecisionObligation.obligation_type := AUDIT_ACCESS;
     AccessDecisionObligation.resource_field := None;
     AccessDecisionObligation.redaction_strategy := None;
     AccessDecisionObligation.reason :=
       "Accessing " ++ Level.value resource_classification ++ " data" |}.

(** The codes of the compartments the resource has and the user lacks,
    as the denial message lists them. *)
Definition missing_codes (resource_compartments user_compartments : list Compartment)
  : list string :=
  let missing : gset Compartment :=
    list_to_set resource_compartments ∖ list_to_set user_compartments in
  map Comp.value (sorted Comp.value (elements missing)).

(** The part of [make_access_decision] after the five checks. *)
Definition allow (fresh : UUID) (now : datetime)
    (user_clearance : ClassificationLevel) (user_compartments : list Compartment)
    (user_mfa_verified : bool)
    (resource_classification : ClassificationLevel)
    (resource_compartments : list Compartment)
    (device_posture : string) : AccessDecision.t :=
  let obligations : list AccessDecisionObligation.t := [] in
  let obligations :=
    if String.eqb device_posture "untrusted"
       && (Level.numeric_value SECRET <=? Level.numeric_value resource_classification)%Z
    then (obligations ++ [mfa_device_obligation])%list else obligations in
  let obligations :=
    if (Level.numeric_value SECRET <=? Level.numeric_value resource_classification)%Z
       && negb user_mfa_verified
    then (obligations ++ [mfa_missing_obligation])%list else obligations in
  let obligations :=
    if (Level.numeric_value CUI <=? Level.numeric_value resource_classification)%Z
    then (obligations ++ [audit_obligation resource_classification])%list
    else obligations in
  {| AccessDecision.decision_id := fresh;
     AccessDecision.allowed := true;
     AccessDecision.reason := "All access control checks passed";
     AccessDecision.obligations := obligations;
     AccessDecision.highest_classification := Some resource_classification;
     AccessDecision.portion_markings :=
       map (λ c, "//" ++ Comp.value c) resource_compartments;
     AccessDecision.decided_at := now;
     AccessDecision.decided_by := "access-control-engine";
     AccessDecision.user_clearance := user_clearance;
     AccessDecision.user_compartments := user_compartments;
     AccessDecision.resource_classification := resource_classification;
     AccessDecision.resource_compartments := resource_compartments |}.

Definition make_access_decision (self : t) (fresh : UUID) (now : datetime)
    (user_id : UUID)
    (user_clearance : ClassificationLevel) (user_compartments : list Compartment)
    (user_roles : list string)
    (user_mfa_verified user_account_suspended : bool)
    (resource_classification : ClassificationLevel)
    (resource_compartments : list Compartment)
    (resource_need_to_know_attrs : option (list (string * pyval)))
    (device_posture : string) (session_active : bool)
  : outcome AccessDecision.t :=
  let deny reason :=
    Returns (decision_with_defaults fresh now false reason user_clearance
               user_compartments resource_classification resource_compartments) in
  let granted :=
    Returns (allow fresh now user_clearance user_compartments user_mfa_verified
               resource_classification resource_compartments device_posture) in
  (* 1) account *)
  if user_account_suspended then deny "User account is suspended"
  (* 2) session *)
  else if negb session_active then deny "Session is not active"
  (* 3) clearance *)
  else if (Level.numeric_value user_clearance
             <? Level.numeric_value resource_classification)%Z
  then deny ("Insufficient clearance: user has " ++ Level.value user_clearance
             ++ ", resource requires " ++ Level.value resource_classification)
  (* 4) compartments *)
  else if negb (issubset resource_compartments user_compartments)
  then deny ("Missing compartments: "
             ++ PyStr.join ", " (missing_codes resource_compartments user_compartments))
  (* 5) need-to-know *)
  else
    match resource_need_to_know_attrs with
    | Some attrs =>
        if nonempty attrs then
          match _check_need_to_know self user_roles attrs with
          | Returns ok => if negb ok then deny "Need-to-know denied" else granted
          | Raises e => Raises e
          end
        else granted
    | None => granted
    end.

Definition apply_redaction (self : t) (data : pyval)
    (user_clearance : ClassificationLevel)
    (user_compartments : list Compartment) : pyval :=
  let obligations :=
    RedactionEngine.compute_obligations (redaction_engine self)
      user_clearance user_compartments in
  RedactionEngine.apply_obligations (redaction_engine self) data obligations
    user_clearance user_compartments.

End AccessControlEngine.

(** ** Enumeration constructors and classification markings (base.py) *)

Definition level_members : list ClassificationLevel :=
  [UNCLASSIFIED; CUI; CONFIDENTIAL; SECRET; TOP_SECRET; TS_SCI].

Definition compartment_members : list Compartment :=
  [NOFORN; NOCONTRACT; HUMINT; SIGINT; IMINT; TALENT_KEYHOLE; RUFF].

(** [ClassificationLevel(code)]: the member whose value is [code].  For
    any other string the constructor raises [ValueError], which is [None]
    here. *)
Definition level_of_value (code : string) : option ClassificationLevel :=
  List.find (λ l, String.eqb (Level.value l) code) level_members.

(** [Compartment(code)], likewise. *)
Definition compartment_of_value (code : string) : option Compartment :=
  List.find (λ c, String.eqb (Comp.value c) code) compartment_members.

Module ClassificationMarking.

Record t := {
  level : ClassificationLevel;
  compartments : list Compartment;
  portion_markings : list string
}.

Definition can_be_accessed_by (self : t) (user_clearance : ClassificationLevel)
    (user_compartments : list Compartment) : bool :=
  if negb (Level.can_access user_clearance (level self)) then false
  else if negb (issubset (compartments self) user_compartments) then false
  else true.

End ClassificationMarking.

(** ** The demo application (apps/aegis_demo_api/main.py) *)

Module DemoApi.

(** [c.isspace()] for a code point below 256: the controls 9 to 13 and 28
    to 31, the space, NEL and the no-break space. *)
Definition isspace (c : ascii) : bool :=
  let n := N_of_ascii c in
  ((9 <=? n) && (n <=? 13) || (28 <=? n) && (n <=? 32)
   || (n =? 133) || (n =? 160))%N.

Fixpoint lstrip (s : string) : string :=
  match s with
  | EmptyString => EmptyString
  | String c s' => if isspace c then lstrip s' else s
  end.

(** [s.strip()] *)
Definition strip (s : string) : string :=
  String.rev (lstrip (String.rev (lstrip s))).

(** [_parse_compartments(raw)]: [None] stands for the [ValueError] that
    [Compartment(i)] raises on an item that is not a compartment code. *)
Definition _parse_compartments (raw : option string) : option (list Compartment) :=
  match raw with
  | None => Some []
  | Some raw =>
      if String.eqb raw EmptyString then Some []
      else
        let items :=
          map strip
            (List.filter (λ x, negb (String.eqb (strip x) EmptyString))
               (PyStr.split "," raw)) in
        mapM compartment_of_value items
  end.

End DemoApi.

(** ** Inputs of the integration tests

    The policies, subjects and payloads of
    [tests/integration/test_classification_redaction.py] and of the demo
    application, for use as concrete inputs. *)

Module Fixture.

(** [ClassificationPolicy(policy_name=name)] with the defaults of the
    other fields. *)
Definition policy_named (name : string) : ClassificationPolicy.t :=
  {| ClassificationPolicy.policy_name := name;
     ClassificationPolicy.policy_description := None;
     ClassificationPolicy.field_redaction_rules := [];
     ClassificationPolicy.portion_redaction_rules := [];
     ClassificationPolicy.access_obligations := [];
     ClassificationPolicy.scope := GLOBAL;
     ClassificationPolicy.applicable_roles := [];
     ClassificationPolicy.is_active := true;
     ClassificationPolicy.is_enforced := true;
     ClassificationPolicy.created_by := None;
     ClassificationPolicy.last_modified_by := None |}.

Definition field_rule (path type : string) (strategy : RedactionStrategy)
    (clearance : option ClassificationLevel) (compartments : list Compartment)
  : FieldRedactionRule.t :=
  {| FieldRedactionRule.field_path := path;
     FieldRedactionRule.field_type := type;
     FieldRedactionRule.strategy := strategy;
     FieldRedactionRule.required_clearance := clearance;
     FieldRedactionRule.required_compartments := compartments;
     FieldRedactionRule.description := None;
     FieldRedactionRule.tags := [] |}.

Definition user_email_rule : FieldRedactionRule.t :=
  field_rule "user.email" "email" MASK_WITH_BRACKETS (Some SECRET) [].

Definition affected_users_rule : FieldRedactionRule.t :=
  field_rule "incident.affected_users[*].email" "email" MASK_WITH_BRACKETS
    (Some SECRET) [HUMINT].

Definition classified_section_rule : PortionRedactionRule.t :=
  {| PortionRedactionRule.portion_name := "classified_section";
     PortionRedactionRule.portion_marking := "//TS//SCI";
     PortionRedactionRule.minimum_clearance := TS_SCI;
     PortionRedactionRule.required_compartments := [];
     PortionRedactionRule.strategy := REMOVE_FIELD;
     PortionRedactionRule.description := None;
     PortionRedactionRule.tags := [] |}.

Definition with_rules (p : ClassificationPolicy.t)
    (field_rules : list FieldRedactionRule.t)
    (portion_rules : list PortionRedactionRule.t) (enforced : bool)
  : ClassificationPolicy.t :=
  {| ClassificationPolicy.policy_name := ClassificationPolicy.policy_name p;
     ClassificationPolicy.policy_description :=
       ClassificationPolicy.policy_description p;
     ClassificationPolicy.field_redaction_rules := field_rules;
     ClassificationPolicy.portion_redaction_rules := portion_rules;
     ClassificationPolicy.access_obligations :=
       ClassificationPolicy.access_obligations p;
     ClassificationPolicy.scope := ClassificationPolicy.scope p;
     ClassificationPolicy.applicable_roles := ClassificationPolicy.applicable_roles p;
     ClassificationPolicy.is_active := ClassificationPolicy.is_active p;
     ClassificationPolicy.is_enforced := enforced;
     ClassificationPolicy.created_by := ClassificationPolicy.created_by p;
     ClassificationPolicy.last_modified_by :=
       ClassificationPolicy.last_modified_by p |}.

(** The fixture [policy_with_redaction]. *)
Definition policy_with_redaction : ClassificationPolicy.t :=
  with_rules (policy_named "Redaction Policy")
    [user_email_rule; affected_users_rule] [classified_section_rule] true.


(** A policy whose only rule truncates [user.email] below SECRET. *)
Definition truncate_policy : ClassificationPolicy.t :=
  with_rules (policy_named "Truncation Policy")
    [field_rule "user.email" "email" TRUNCATE (Some SECRET) []] [] true.

Definition engine : AccessControlEngine.t :=
  AccessControlEngine.init (policy_named "Test Policy") None.

Definition alice : pyval :=
  VDict [("user", VDict [("name", VStr "Alice Smith");
                         ("email", VStr "alice@agency.gov")])].

Definition incident : pyval :=
  VDict
    [("incident",
      VDict
        [("affected_users",
          VList [VDict [("name", VStr "Alice"); ("email", VStr "alice@agency.gov")];
                 VDict [("name", VStr "Bob"); ("email", VStr "bob@agency.gov")]])])].

Definition entity (c : ClassificationLevel) (markings : list string)
    (compartments : list Compartment) : Entity.t :=
  {| Entity.classification := Some c;
     Entity.portion_markings := Some markings;
     Entity.compartments := Some compartments |}.

(** A stand-in for the digest that shows what it was given. *)
Definition tagged (key msg : string) : string := key ++ "|" ++ msg.

(** The three entities of the aggregation test. *)
Definition banner_entities : list Entity.t :=
  [entity SECRET ["//NOFORN"] [NOFORN];
   entity TOP_SECRET ["//HUMINT"] [HUMINT];
   entity SECRET ["//NOCONTRACT"] []].

Definition banner_entities_rotated : list Entity.t :=
  [entity SECRET ["//NOCONTRACT"] [];
   entity SECRET ["//NOFORN"] [NOFORN];
   entity TOP_SECRET ["//HUMINT"] [HUMINT]].

End Fixture.

(** ** Vocabulary of the statements *)

(** An obligation as the decision point emits it: it names neither a
    field nor a strategy. *)
Definition obligation (ty : ObligationType) (why : string)
  : AccessDecisionObligation.t :=
  {| AccessDecisionObligation.obligation_type := ty;
     AccessDecisionObligation.resource_field := None;
     AccessDecisionObligation.redaction_strategy := None;
     AccessDecisionObligation.reason := why |}.

(** What one entity contributes to the two sets. *)
Definition markings_of (e : Entity.t) : gset string :=
  match Entity.portion_markings e with
  | Some ms => list_to_set ms
  | None => ∅
  end.

Definition compartments_of (e : Entity.t) : gset Compartment :=
  match Entity.compartments e with
  | Some xs => list_to_set xs
  | None => ∅
  end.

(** The text that is signed, written out: the four keys in increasing
    order, no blank between tokens. *)
Definition canonical_payload (highest : ClassificationLevel)
    (markings codes : list string) (count : Z) : string :=
  "{"
  ++ PyStr.join ","
       [Json.encode_str "all_compartments" ++ ":"
          ++ ("[" ++ PyStr.join "," (map Json.encode_str codes) ++ "]");
        Json.encode_str "all_portion_markings" ++ ":"
          ++ ("[" ++ PyStr.join "," (map Json.encode_str markings) ++ "]");
        Json.encode_str "count" ++ ":" ++ Json.encode_int count;
        Json.encode_str "highest_classification" ++ ":"
          ++ Json.encode_str (Level.value highest)]
  ++ "}".

(** The three strings that the engine writes in place of a value. *)
Definition is_mask (v : pyval) : Prop :=
  v = VStr "[REDACTED]" ∨ v = VStr "****" ∨ v = VStr "#####".

(** [masked x y]: [y] is [x] in which some entries of dictionaries have
    been given a mask as their value.  Keys, their order and the length
    of every list are those of [x]. *)
Inductive masked : pyval → pyval → Prop :=
  | masked_same x : masked x x
  | masked_list l l' : Forall2 masked l l' → masked (VList l) (VList l')
  | masked_dict d d' :
      Forall2 (λ e e' : string * pyval,
                 e.1 = e'.1 ∧ (masked e.2 e'.2 ∨ is_mask e'.2)) d d' →
      masked (VDict d) (VDict d').

(** The value found in a payload by following keys through nested
    dictionaries, when every key names an entry. *)
Fixpoint descend (keys : list string) (current : pyval) : option pyval :=
  match keys with
  | [] => Some current
  | key :: keys' =>
      match current with
      | VDict d =>
          match Dict.get key d with
          | Some child => descend keys' child
          | None => None
          end
      | _ => None
      end
  end.

(** The payload in which the value found along the keys is replaced by
    [new] and nothing else changes. *)
Fixpoint replace_at (keys : list string) (new : pyval) (current : pyval)
  : pyval :=
  match keys with
  | [] => new
  | key :: keys' =>
      match current with
      | VDict d =>
          match Dict.get key d with
          | Some child => VDict (Dict.set key (replace_at keys' new child) d)
          | None => current
          end
      | _ => current
      end
  end.

(** The key that a segment of a path names. *)
Definition segment_key (head : string) : string :=
  if PyStr.endswith head "[*]" then PyStr.drop_last 3 head else head.

(** The payload after a call of [_set_path_redacted]. *)
Definition write (parts : list string) (v : pyval) (current : pyval) : pyval :=
  (RedactionEngine._set_path_redacted parts v current).2.

(** What a call on a dictionary makes of the entry that the first segment
    names: a list has every element rewritten along the rest of the path
    under a segment [key[*]]; under a plain segment the entry is replaced
    when the path ends there, and rewritten along the rest of the path
    otherwise. *)
Definition child_write (head : string) (tail : list string) (v child : pyval)
  : pyval :=
  if PyStr.endswith head "[*]" then
    match child with
    | VList items => VList (map (write tail v) items)
    | _ => child
    end
  else match tail with [] => v | _ => write tail v child end.

(** The values of the entries that a path designates in a payload: the
    entries that [_set_path_redacted] reaches along this path, in the
    order in which it visits them. *)
Fixpoint designated (parts : list string) (current : pyval) : list pyval :=
  match parts with
  | [] => []
  | head :: tail =>
      match current with
      | VDict d =>
          match Dict.get (segment_key head) d with
          | Some child =>
              if PyStr.endswith head "[*]" then
                match child with
                | VList items => flat_map (designated tail) items
                | _ => []
                end
              else match tail with [] => [child] | _ => designated tail child end
          | None => []
          end
      | _ => []
      end
  end.

(** What the obligation of a field rule writes, and where: the segments
    of the path of the rule and the replacement of the last rule of the
    policy that bears this path and fires.  An empty path is skipped by
    [apply_obligations]. *)
Definition target (self : RedactionEngine.t)
    (user_clearance : ClassificationLevel) (user_compartments : list Compartment)
    (rule : FieldRedactionRule.t) : option (list string * string) :=
  let field_path := FieldRedactionRule.field_path rule in
  if String.eqb field_path EmptyString then None
  else
    (λ r, (PyStr.split "." field_path, FieldRedactionRule.apply_redaction r VNone))
    <$> last (filter (λ r, FieldRedactionRule.field_path r = field_path
                           ∧ FieldRedactionRule.should_redact r user_clearance
                               user_compartments = true)
                (ClassificationPolicy.field_redaction_rules
                   (RedactionEngine.policy self))).

(** The user holds one of the roles, or none is required. *)
Definition holds_required_role (user_roles required : list string) : Prop :=
  required = [] ∨ ∃ r, r ∈ required ∧ r ∈ user_roles.

(** * Properties *)

(** ** The order on strings and [sorted] *)

Section StringOrder.

Lemma ascii_compare_spec (a b : ascii) :
  CompareSpec (a = b) (N_of_ascii a < N_of_ascii b)%N
    (N_of_ascii b < N_of_ascii a)%N (Ascii.compare a b).
Proof.
  unfold Ascii.compare.
  destruct (N.compare_spec (N_of_ascii a) (N_of_ascii b)) as [E|L|G];
    constructor; try assumption.
  rewrite <- (ascii_N_embedding a), <- (ascii_N_embedding b). by f_equal.
Qed.

Lemma string_compare_refl (s : string) : String.compare s s = Eq.
Proof.
  induction s as [|c s IH]; simpl; [done|].
  destruct (ascii_compare_spec c c); [done|lia..].
Qed.

Lemma string_compare_lt_trans (s1 s2 s3 : string) :
  String.compare s1 s2 = Lt → String.compare s2 s3 = Lt →
  String.compare s1 s3 = Lt.
Proof.
  revert s2 s3.
  induction s1 as [|a s1 IH]; intros [|b s2] [|c s3]; simpl; try done.
  destruct (ascii_compare_spec a b), (ascii_compare_spec b c),
    (ascii_compare_spec a c); subst; try done; try lia; eauto.
Qed.

Lemma leb_iff_lt_or_eq (s1 s2 : string) :
  PyStr.le s1 s2 ↔ String.compare s1 s2 = Lt ∨ s1 = s2.
Proof.
  unfold PyStr.le, String.leb. split.
  - destruct (String.compare s1 s2) eqn:E; [|by left|done].
    right. by apply String.compare_eq_iff.
  - intros [->| ->]; [done|]. by rewrite string_compare_refl.
Qed.

#[global] Instance pystr_le_refl : Reflexive PyStr.le.
Proof. intros s. apply leb_iff_lt_or_eq. by right. Qed.

#[global] Instance pystr_le_trans : Transitive PyStr.le.
Proof.
  intros s1 s2 s3. rewrite !leb_iff_lt_or_eq.
  intros [L1| ->] [L2| ->]; eauto using string_compare_lt_trans.
Qed.

#[global] Instance pystr_le_total : Total PyStr.le.
Proof. intros s1 s2. apply String.leb_total. Qed.

#[global] Instance pystr_le_antisym : AntiSymm (=) PyStr.le.
Proof. intros s1 s2. apply String.leb_antisym. Qed.

Lemma ltb_iff_le_ne (s1 s2 : string) :
  String.ltb s1 s2 = true ↔ PyStr.le s1 s2 ∧ s1 ≠ s2.
Proof.
  rewrite leb_iff_lt_or_eq. unfold String.ltb. split.
  - destruct (String.compare s1 s2) eqn:E; try done.
    intros _. split; [by left|]. intros ->.
    by rewrite string_compare_refl in E.
  - intros [[->| ->] Hne]; done.
Qed.

End StringOrder.

Section Sorted.

Context {A : Type} (k : A → string).

#[global] Instance key_le_trans : Transitive (key_le k).
Proof. intros x y z. unfold key_le. apply pystr_le_trans. Qed.

#[global] Instance key_le_total : Total (key_le k).
Proof. intros x y. unfold key_le. apply pystr_le_total. Qed.

Lemma key_le_antisym `{!Inj (=) (=) k} : AntiSymm (=) (key_le k).
Proof. intros x y H1 H2. apply (inj k). by apply pystr_le_antisym. Qed.

Lemma sorted_permutation (xs : list A) : sorted k xs ≡ₚ xs.
Proof. apply merge_sort_Permutation. Qed.

Lemma sorted_strongly_sorted (xs : list A) :
  StronglySorted (key_le k) (sorted k xs).
Proof. apply StronglySorted_merge_sort; apply _. Qed.

Lemma elem_of_sorted (x : A) (xs : list A) : x ∈ sorted k xs ↔ x ∈ xs.
Proof. by rewrite sorted_permutation. Qed.

(** With an injective key, the sorted list is determined by the
    elements alone: the order in which a set is iterated, and the
    sorting algorithm, do not show in the result. *)
Lemma sorted_unique `{!Inj (=) (=) k} (xs ys : list A) :
  StronglySorted (key_le k) ys → ys ≡ₚ xs → ys = sorted k xs.
Proof.
  intros Hs Hp.
  apply (StronglySorted_unique (key_le k) (AntiSymm0 := key_le_antisym)); [done| |].
  - apply sorted_strongly_sorted.
  - by rewrite sorted_permutation.
Qed.

Lemma sorted_perm_eq `{!Inj (=) (=) k} (xs ys : list A) :
  xs ≡ₚ ys → sorted k xs = sorted k ys.
Proof.
  intros Hp. apply sorted_unique; [apply sorted_strongly_sorted|].
  by rewrite sorted_permutation.
Qed.

(** A sorted list without repetition is strictly increasing. *)
Lemma sorted_strict `{!Inj (=) (=) k} (xs : list A) :
  NoDup xs →
  StronglySorted (λ a b, String.ltb a b = true) (map k (sorted k xs)).
Proof.
  intros Hnd.
  assert (NoDup (sorted k xs)) as Hnd' by by rewrite sorted_permutation.
  pose proof (sorted_strongly_sorted xs) as Hs.
  induction Hs as [|x l Hs IH Hall]; simpl; [constructor|].
  apply NoDup_cons in Hnd' as [Hx Hl].
  constructor; [by apply IH|].
  apply Forall_fmap, Forall_forall. intros y Hy. simpl.
  apply ltb_iff_le_ne. split.
  - by eapply Forall_forall in Hall.
  - intros Heq. apply (inj k) in Heq. by subst.
Qed.

End Sorted.

(** ** The lattice of levels and the compartments *)

Lemma numeric_value_mapping (l : ClassificationLevel) :
  Level.assoc (Level.value l) Level.mapping = Some (Level.numeric_value l).
Proof. by destruct l. Qed.

Lemma numeric_value_range (l : ClassificationLevel) :
  (0 ≤ Level.numeric_value l ≤ 5)%Z.
Proof. destruct l; vm_compute; split; discriminate. Qed.

#[global] Instance numeric_value_inj : Inj (=) (=) Level.numeric_value.
Proof. intros [] []; vm_compute; congruence. Qed.

#[global] Instance compartment_value_inj : Inj (=) (=) Comp.value.
Proof. intros [] []; vm_compute; congruence. Qed.

Lemma issubset_spec (required held : list Compartment) :
  issubset required held = true ↔ required ⊆ held.
Proof.
  unfold issubset. rewrite bool_decide_eq_true. split.
  - intros H c Hc. specialize (H c). rewrite !elem_of_list_to_set in H. auto.
  - intros H c. rewrite !elem_of_list_to_set. apply H.
Qed.

Lemma issubset_false (required held : list Compartment) :
  issubset required held = false ↔ ¬ required ⊆ held.
Proof. rewrite <- issubset_spec. by destruct (issubset required held). Qed.

Lemma nonempty_spec {A} (xs : list A) : nonempty xs = true ↔ xs ≠ [].
Proof. by destruct xs. Qed.

(** ** The policy decision point *)

Section Decide.

Import AccessControlEngine.

Variables (self : AccessControlEngine.t) (fresh : UUID) (now : datetime)
          (user_id : UUID).

Lemma elem_of_missing_codes (resource_compartments user_compartments : list Compartment)
    (code : string) :
  code ∈ missing_codes resource_compartments user_compartments ↔
  ∃ c, Comp.value c = code ∧ c ∈ resource_compartments ∧ c ∉ user_compartments.
Proof.
  unfold missing_codes. rewrite list_elem_of_fmap. split.
  - intros (c & -> & Hc). exists c. split; [done|].
    apply elem_of_sorted, elem_of_elements, elem_of_difference in Hc.
    by rewrite !elem_of_list_to_set in Hc.
  - intros (c & <- & Hr & Hu). exists c. split; [done|].
    apply elem_of_sorted, elem_of_elements, elem_of_difference.
    by rewrite !elem_of_list_to_set.
Qed.

Lemma missing_codes_increasing (resource_compartments user_compartments : list Compartment) :
  StronglySorted (λ a b, String.ltb a b = true)
    (missing_codes resource_compartments user_compartments).
Proof. apply sorted_strict; [apply _|apply NoDup_elements]. Qed.

(** The list in the message is the only increasing list of the missing
    codes: no other order of iteration over the set could show. *)
Lemma missing_codes_unique (resource_compartments user_compartments : list Compartment)
    (codes : list string) :
  StronglySorted (λ a b, String.ltb a b = true) codes →
  (∀ code, code ∈ codes ↔
     ∃ c, Comp.value c = code ∧ c ∈ resource_compartments ∧ c ∉ user_compartments) →
  codes = missing_codes resource_compartments user_compartments.
Proof.
  intros Hs Hin.
  assert (∀ l, StronglySorted (λ a b, String.ltb a b = true) l →
               StronglySorted PyStr.le l ∧ NoDup l) as Hstrict.
  { induction 1 as [|x l Hl [IH1 IH2] Hall]; [split; constructor|].
    split.
    - constructor; [done|]. eapply Forall_impl; [exact Hall|].
      intros y Hy. by apply ltb_iff_le_ne in Hy as [? _].
    - apply NoDup_cons. split; [|done]. intros Hx.
      eapply Forall_forall in Hall; [|exact Hx].
      by apply ltb_iff_le_ne in Hall as [_ ?]. }
  destruct (Hstrict _ Hs) as [Hs1 Hnd1].
  destruct (Hstrict _ (missing_codes_increasing resource_compartments user_compartments))
    as [Hs2 Hnd2].
  apply (StronglySorted_unique PyStr.le); [done..|].
  apply NoDup_Permutation; [done..|].
  intros code. by rewrite Hin, elem_of_missing_codes.
Qed.

(** C1: a suspended account is denied with the reason "User account is
    suspended", whatever the other fields of the subject and of the
    resource are (session, clearance, compartments, need-to-know
    attributes, device posture): the first check decides alone, and a
    later check cannot even raise. *)
Theorem suspended_account_denied
    (user_clearance : ClassificationLevel) (user_compartments : list Compartment)
    (user_roles : list string) (user_mfa_verified : bool)
    (resource_classification : ClassificationLevel)
    (resource_compartments : list Compartment)
    (resource_need_to_know_attrs : option (list (string * pyval)))
    (device_posture : string) (session_active : bool) :
  ∃ d,
    make_access_decision self fresh now user_id user_clearance user_compartments
      user_roles user_mfa_verified true resource_classification
      resource_compartments resource_need_to_know_attrs device_posture
      session_active = Returns d
    ∧ AccessDecision.allowed d = false
    ∧ AccessDecision.reason d = "User account is suspended".
Proof. eexists. by split; [reflexivity|]. Qed.

(** C2: with an account that is not suspended and an active session, a
    clearance whose rank is strictly below the rank of the resource's
    classification is denied, and the reason is "Insufficient clearance:
    user has {user_code}, resource requires {resource_code}" with the
    codes of the two levels; in particular it starts with "Insufficient
    clearance". *)
Theorem insufficient_clearance_denied
    (user_clearance : ClassificationLevel) (user_compartments : list Compartment)
    (user_roles : list string) (user_mfa_verified : bool)
    (resource_classification : ClassificationLevel)
    (resource_compartments : list Compartment)
    (resource_need_to_know_attrs : option (list (string * pyval)))
    (device_posture : string) :
  (Level.numeric_value user_clearance
     < Level.numeric_value resource_classification)%Z →
  ∃ d,
    make_access_decision self fresh now user_id user_clearance user_compartments
      user_roles user_mfa_verified false resource_classification
      resource_compartments resource_need_to_know_attrs device_posture
      true = Returns d
    ∧ AccessDecision.allowed d = false
    ∧ AccessDecision.reason d =
        "Insufficient clearance: user has " ++ Level.value user_clearance
        ++ ", resource requires " ++ Level.value resource_classification
    ∧ String.prefix "Insufficient clearance" (AccessDecision.reason d) = true.
Proof.
  intros Hlt. apply Z.ltb_lt in Hlt.
  eexists. unfold make_access_decision. simpl. rewrite Hlt.
  by repeat split.
Qed.

(** C3: when the account, session and clearance checks pass and some
    compartment of the resource is not held by the subject, the request
    is denied with the reason "Missing compartments: " followed by the
    codes of the compartments that the resource has and the subject
    lacks, each once, in increasing lexicographic order, joined by a
    comma and a space. *)
Theorem missing_compartments_denied
    (user_clearance : ClassificationLevel) (user_compartments : list Compartment)
    (user_roles : list string) (user_mfa_verified : bool)
    (resource_classification : ClassificationLevel)
    (resource_compartments : list Compartment)
    (resource_need_to_know_attrs : option (list (string * pyval)))
    (device_posture : string) :
  (Level.numeric_value resource_classification
     ≤ Level.numeric_value user_clearance)%Z →
  ¬ resource_compartments ⊆ user_compartments →
  ∃ d codes,
    make_access_decision self fresh now user_id user_clearance user_compartments
      user_roles user_mfa_verified false resource_classification
      resource_compartments resource_need_to_know_attrs device_posture
      true = Returns d
    ∧ AccessDecision.allowed d = false
    ∧ AccessDecision.reason d = "Missing compartments: " ++ PyStr.join ", " codes
    ∧ (∀ code, code ∈ codes ↔
         ∃ c, Comp.value c = code ∧ c ∈ resource_compartments
              ∧ c ∉ user_compartments)
    ∧ StronglySorted (λ a b, String.ltb a b = true) codes.
Proof.
  intros Hge Hsub.
  assert ((Level.numeric_value user_clearance
             <? Level.numeric_value resource_classification)%Z = false) as Hc
    by by apply Z.ltb_ge.
  apply issubset_false in Hsub.
  eexists. exists (missing_codes resource_compartments user_compartments).
  unfold make_access_decision. simpl. rewrite Hc, Hsub. simpl.
  repeat split.
  - by apply elem_of_missing_codes.
  - by apply elem_of_missing_codes.
  - apply missing_codes_increasing.
Qed.

End Decide.

(** One step of the case analysis that follows the checks of
    [make_access_decision] in their order. *)
Ltac case_check :=
  match goal with
  | |- context [if ?b then _ else _] => destruct b
  | |- context [match ?x with Some _ => _ | None => _ end] => destruct x
  | |- context [match ?x with Returns _ => _ | Raises _ => _ end] => destruct x
  end.

Section Obligations.

Import AccessControlEngine.

Variables (self : AccessControlEngine.t) (fresh : UUID) (now : datetime)
          (user_id : UUID).

(** Every decision that is returned is built in one of two ways: by a
    denial, with the defaults of the fields that a denial does not pass,
    or by the code that follows the five checks. *)
Lemma make_access_decision_cases
    (user_clearance : ClassificationLevel) (user_compartments : list Compartment)
    (user_roles : list string) (user_mfa_verified user_account_suspended : bool)
    (resource_classification : ClassificationLevel)
    (resource_compartments : list Compartment)
    (resource_need_to_know_attrs : option (list (string * pyval)))
    (device_posture : string) (session_active : bool) (d : AccessDecision.t) :
  make_access_decision self fresh now user_id user_clearance user_compartments
    user_roles user_mfa_verified user_account_suspended resource_classification
    resource_compartments resource_need_to_know_attrs device_posture
    session_active = Returns d →
  (∃ reason,
     d = decision_with_defaults fresh now false reason user_clearance
           user_compartments resource_classification resource_compartments)
  ∨ d = allow fresh now user_clearance user_compartments user_mfa_verified
          resource_classification resource_compartments device_posture.
Proof.
  unfold make_access_decision. repeat case_check;
    intros [= <-] || discriminate; eauto.
Qed.

(** The call returns a decision unless the entry [required_roles] of the
    attributes is a true value that cannot be iterated. *)
Lemma make_access_decision_returns
    (user_clearance : ClassificationLevel) (user_compartments : list Compartment)
    (user_roles : list string) (user_mfa_verified user_account_suspended : bool)
    (resource_classification : ClassificationLevel)
    (resource_compartments : list Compartment)
    (resource_need_to_know_attrs : option (list (string * pyval)))
    (device_posture : string) (session_active : bool) :
  (∀ attrs v,
     resource_need_to_know_attrs = Some attrs →
     Dict.get "required_roles" attrs = Some v →
     truthy v = true → ∃ rs, iterate v = Returns rs) →
  ∃ d,
    make_access_decision self fresh now user_id user_clearance user_compartments
      user_roles user_mfa_verified user_account_suspended resource_classification
      resource_compartments resource_need_to_know_attrs device_posture
      session_active = Returns d.
Proof.
  intros Hiter. unfold make_access_decision.
  repeat match goal with
         | |- context [if ?b then _ else _] =>
             lazymatch b with
             | context [_check_need_to_know] => fail
             | _ => destruct b; eauto
             end
         end.
  destruct resource_need_to_know_attrs as [attrs|]; [|eauto].
  destruct (nonempty attrs) eqn:Hne; [|eauto].
  unfold _check_need_to_know. rewrite Hne. simpl.
  destruct (Dict.get "required_roles" attrs) as [v|] eqn:Hget; simpl; [|eauto].
  destruct (truthy v) eqn:Hv; [|eauto].
  destruct (Hiter attrs v eq_refl Hget Hv) as [rs ->].
  destruct (existsb (role_in user_roles) rs); simpl; eauto.
Qed.

(** C7: the obligations of an allowed decision are, in this order: a
    REQUIRE_MFA_STEP_UP with the device reason exactly when the device
    posture is "untrusted" and the resource ranks at least SECRET; then a
    REQUIRE_MFA_STEP_UP with the verification reason exactly when the
    resource ranks at least SECRET and the subject is not MFA-verified;
    then an AUDIT_ACCESS with reason "Accessing {resource_code} data"
    exactly when the resource ranks at least CUI; and nothing else. *)
Theorem obligations_in_fixed_order
    (user_clearance : ClassificationLevel) (user_compartments : list Compartment)
    (user_roles : list string) (user_mfa_verified user_account_suspended : bool)
    (resource_classification : ClassificationLevel)
    (resource_compartments : list Compartment)
    (resource_need_to_know_attrs : option (list (string * pyval)))
    (device_posture : string) (session_active : bool) (d : AccessDecision.t) :
  make_access_decision self fresh now user_id user_clearance user_compartments
    user_roles user_mfa_verified user_account_suspended resource_classification
    resource_compartments resource_need_to_know_attrs device_posture
    session_active = Returns d →
  AccessDecision.allowed d = true →
  AccessDecision.obligations d =
    ((if bool_decide (device_posture = "untrusted"
                      ∧ (Level.numeric_value SECRET
                           ≤ Level.numeric_value resource_classification)%Z)
      then [obligation REQUIRE_MFA_STEP_UP
              "Device is untrusted; Secret+ data requires additional MFA"]
      else [])
     ++ (if bool_decide ((Level.numeric_value SECRET
                            ≤ Level.numeric_value resource_classification)%Z
                         ∧ user_mfa_verified = false)
         then [obligation REQUIRE_MFA_STEP_UP
                 "Secret+ data requires MFA verification"]
         else [])
     ++ (if bool_decide (Level.numeric_value CUI
                           ≤ Level.numeric_value resource_classification)%Z
         then [obligation AUDIT_ACCESS
                 ("Accessing " ++ Level.value resource_classification ++ " data")]
         else []))%list.
Proof.
  intros Hd Hallowed.
  apply make_access_decision_cases in Hd as [[reason ->]| ->]; [done|].
  clear Hallowed. unfold allow. cbn [AccessDecision.obligations].
  destruct (String.eqb_spec device_posture "untrusted") as [->|Hdp];
    destruct (Z.leb_spec (Level.numeric_value SECRET)
                (Level.numeric_value resource_classification));
    destruct (Z.leb_spec (Level.numeric_value CUI)
                (Level.numeric_value resource_classification));
    destruct user_mfa_verified; cbn [andb negb app];
    repeat case_bool_decide; try reflexivity;
    exfalso; intuition (lia || congruence).
Qed.

(** C10: a denied decision carries no obligation, no highest
    classification and no portion marking; so a decision that carries any
    of them is an allowed one. *)
Theorem denied_decision_carries_nothing
    (user_clearance : ClassificationLevel) (user_compartments : list Compartment)
    (user_roles : list string) (user_mfa_verified user_account_suspended : bool)
    (resource_classification : ClassificationLevel)
    (resource_compartments : list Compartment)
    (resource_need_to_know_attrs : option (list (string * pyval)))
    (device_posture : string) (session_active : bool) (d : AccessDecision.t) :
  make_access_decision self fresh now user_id user_clearance user_compartments
    user_roles user_mfa_verified user_account_suspended resource_classification
    resource_compartments resource_need_to_know_attrs device_posture
    session_active = Returns d →
  (AccessDecision.allowed d = false →
     AccessDecision.obligations d = []
     ∧ AccessDecision.highest_classification d = None
     ∧ AccessDecision.portion_markings d = [])
  ∧ (AccessDecision.obligations d ≠ []
     ∨ AccessDecision.highest_classification d ≠ None
     ∨ AccessDecision.portion_markings d ≠ [] →
     AccessDecision.allowed d = true).
Proof.
  intros Hd.
  apply make_access_decision_cases in Hd as [[reason ->]| ->]; simpl.
  - split; [done|]. intros [H|[H|H]]; done.
  - split; [done|]. done.
Qed.

End Obligations.

(** The test [test_deny_insufficient_clearance]. *)
Lemma insufficient_clearance_denied_witness :
  (Level.numeric_value SECRET < Level.numeric_value TOP_SECRET)%Z
  ∧ ∃ d,
      AccessControlEngine.make_access_decision Fixture.engine 1%N 0%Z 7%N
        SECRET [NOFORN] ["analyst"] true false TOP_SECRET [NOFORN] None
        "trusted" true = Returns d
      ∧ AccessDecision.allowed d = false
      ∧ AccessDecision.reason d
        = "Insufficient clearance: user has S, resource requires TS"
      ∧ String.prefix "Insufficient clearance" (AccessDecision.reason d) = true.
Proof.
  split; [reflexivity|].
  apply (insufficient_clearance_denied Fixture.engine 1%N 0%Z 7%N
           SECRET [NOFORN] ["analyst"] true TOP_SECRET [NOFORN] None "trusted").
  reflexivity.
Defined.

(** The test [test_deny_missing_compartments], with a second missing
    compartment to show the order. *)
Lemma missing_compartments_denied_witness :
  (Level.numeric_value SECRET ≤ Level.numeric_value SECRET)%Z
  ∧ ¬ [SIGINT; NOFORN; HUMINT] ⊆ [NOFORN]
  ∧ ∃ d codes,
      AccessControlEngine.make_access_decision Fixture.engine 1%N 0%Z 7%N
        SECRET [NOFORN] ["analyst"] true false SECRET [SIGINT; NOFORN; HUMINT]
        None "trusted" true = Returns d
      ∧ AccessDecision.allowed d = false
      ∧ AccessDecision.reason d = "Missing compartments: " ++ PyStr.join ", " codes
      ∧ (∀ code, code ∈ codes ↔
           ∃ c, Comp.value c = code ∧ c ∈ [SIGINT; NOFORN; HUMINT] ∧ c ∉ [NOFORN])
      ∧ StronglySorted (λ a b, String.ltb a b = true) codes.
Proof.
  assert (¬ [SIGINT; NOFORN; HUMINT] ⊆ [NOFORN]) as Hsub
    by (apply issubset_false; vm_compute; reflexivity).
  split; [discriminate|]. split; [exact Hsub|].
  apply (missing_compartments_denied Fixture.engine 1%N 0%Z 7%N
           SECRET [NOFORN] ["analyst"] true SECRET [SIGINT; NOFORN; HUMINT] None
           "trusted"); [discriminate|exact Hsub].
Defined.

(** What the message of that denial is. *)
Example missing_compartments_message :
  AccessDecision.reason
    (AccessControlEngine.decision_with_defaults 1%N 0%Z false
       ("Missing compartments: "
        ++ PyStr.join ", "
             (AccessControlEngine.missing_codes [SIGINT; NOFORN; HUMINT] [NOFORN]))
       SECRET [NOFORN] SECRET [SIGINT; NOFORN; HUMINT])
  = "Missing compartments: HUMINT, SIGINT".
Proof. vm_compute. reflexivity. Qed.

(** The scenario of an untrusted device on SECRET data, without MFA. *)
Lemma obligations_in_fixed_order_witness :
  ∃ d,
    AccessControlEngine.make_access_decision Fixture.engine 1%N 0%Z 7%N
      SECRET [] ["analyst"] false false SECRET [] None "untrusted" true = Returns d
    ∧ AccessDecision.allowed d = true
    ∧ AccessDecision.obligations d =
        [obligation REQUIRE_MFA_STEP_UP
           "Device is untrusted; Secret+ data requires additional MFA";
         obligation REQUIRE_MFA_STEP_UP "Secret+ data requires MFA verification";
         obligation AUDIT_ACCESS "Accessing S data"].
Proof.
  eexists. split; [reflexivity|]. split; [reflexivity|].
  exact (obligations_in_fixed_order Fixture.engine 1%N 0%Z 7%N
           SECRET [] ["analyst"] false false SECRET [] None "untrusted" true _
           eq_refl eq_refl).
Defined.

(** The test [test_deny_inactive_session]. *)
Lemma denied_decision_carries_nothing_witness :
  ∃ d,
    AccessControlEngine.make_access_decision Fixture.engine 1%N 0%Z 7%N
      SECRET [NOFORN] ["analyst"] true false UNCLASSIFIED [] None "trusted" false
    = Returns d
    ∧ AccessDecision.reason d = "Session is not active"
    ∧ AccessDecision.allowed d = false
    ∧ AccessDecision.obligations d = []
    ∧ AccessDecision.highest_classification d = None
    ∧ AccessDecision.portion_markings d = [].
Proof.
  eexists. split; [reflexivity|]. split; [reflexivity|]. split; [reflexivity|].
  exact (proj1 (denied_decision_carries_nothing Fixture.engine 1%N 0%Z 7%N
                  SECRET [NOFORN] ["analyst"] true false UNCLASSIFIED [] None
                  "trusted" false _ eq_refl) eq_refl).
Defined.

(** ** Redaction rules *)

(** C5: a field rule fires exactly when its clearance requirement is set
    and the subject ranks strictly below it, or its compartment
    requirement is non-empty and not contained in the subject's
    compartments.  Hence a rule with both requirements fires as soon as
    one of them is unsatisfied, and a rule with neither never fires. *)
Theorem should_redact_iff (rule : FieldRedactionRule.t)
    (user_clearance : ClassificationLevel) (user_compartments : list Compartment) :
  (FieldRedactionRule.should_redact rule user_clearance user_compartments = true ↔
     (∃ required,
        FieldRedactionRule.required_clearance rule = Some required
        ∧ (Level.numeric_value user_clearance < Level.numeric_value required)%Z)
     ∨ (FieldRedactionRule.required_compartments rule ≠ []
        ∧ ¬ FieldRedactionRule.required_compartments rule ⊆ user_compartments))
  ∧ (∀ required,
       FieldRedactionRule.required_clearance rule = Some required →
       FieldRedactionRule.required_compartments rule ≠ [] →
       (Level.numeric_value user_clearance < Level.numeric_value required)%Z
       ∨ ¬ FieldRedactionRule.required_compartments rule ⊆ user_compartments →
       FieldRedactionRule.should_redact rule user_clearance user_compartments = true)
  ∧ (FieldRedactionRule.required_clearance rule = None →
     FieldRedactionRule.required_compartments rule = [] →
     FieldRedactionRule.should_redact rule user_clearance user_compartments = false).
Proof.
  assert (FieldRedactionRule.should_redact rule user_clearance user_compartments = true ↔
     (∃ required,
        FieldRedactionRule.required_clearance rule = Some required
        ∧ (Level.numeric_value user_clearance < Level.numeric_value required)%Z)
     ∨ (FieldRedactionRule.required_compartments rule ≠ []
        ∧ ¬ FieldRedactionRule.required_compartments rule ⊆ user_compartments)) as Hiff.
  { unfold FieldRedactionRule.should_redact.
    destruct (nonempty (FieldRedactionRule.required_compartments rule)) eqn:Hne;
      [apply nonempty_spec in Hne|apply not_true_iff_false in Hne;
                                  rewrite nonempty_spec in Hne].
    - destruct (issubset _ user_compartments) eqn:Hsub;
        [apply issubset_spec in Hsub|apply issubset_false in Hsub]; simpl;
        destruct (FieldRedactionRule.required_clearance rule) as [required|];
        try destruct (Z.ltb_spec (Level.numeric_value user_clearance)
                        (Level.numeric_value required));
        split; try done; eauto; intros [(r & [= <-] & ?)|[? ?]]; done || lia.
    - destruct (FieldRedactionRule.required_clearance rule) as [required|];
        try destruct (Z.ltb_spec (Level.numeric_value user_clearance)
                        (Level.numeric_value required));
        split; try done; eauto; intros [(r & [= <-] & ?)|[? ?]]; done || lia. }
  split; [exact Hiff|]. split.
  - intros required Hreq Hne [Hlt|Hsub]; apply Hiff; eauto.
  - intros Hnone Hnil. apply not_true_iff_false. rewrite Hiff.
    intros [(r & Hr & _)|[Hne _]]; congruence.
Qed.

(** The rule of the demo policy, with both requirements: a subject with
    the clearance but without the compartment is redacted. *)
Lemma should_redact_iff_witness :
  FieldRedactionRule.should_redact Fixture.affected_users_rule SECRET [NOFORN] = true.
Proof.
  apply (proj1 (proj2 (should_redact_iff Fixture.affected_users_rule SECRET
                         [NOFORN])) SECRET eq_refl); [discriminate|].
  right. apply issubset_false. vm_compute. reflexivity.
Defined.

(** ** Policies that are not enforced *)


Lemma foldl_append_if {A B} (p : A → bool) (f : A → B) (xs : list A) (acc : list B) :
  foldl (λ acc x, if p x then acc ++ [f x] else acc)%list acc xs
  = (acc ++ map f (filter (λ x, p x = true) xs))%list.
Proof.
  revert acc. induction xs as [|x xs IH]; intros acc; simpl.
  - by rewrite app_nil_r.
  - rewrite IH, filter_cons. destruct (p x) eqn:Hp.
    + rewrite decide_True by done. simpl. by rewrite <- app_assoc.
    + rewrite decide_False by congruence. done.
Qed.


(** ** Truncation *)

(** Given a string of more than six characters, the rule itself keeps
    the first three and the last three characters. *)
Lemma apply_redaction_truncates (rule : FieldRedactionRule.t) (s : string) :
  FieldRedactionRule.strategy rule = TRUNCATE →
  (6 < String.length s)%nat →
  FieldRedactionRule.apply_redaction rule (VStr s)
  = PyStr.take_first 3 s ++ "..." ++ PyStr.take_last 3 s.
Proof.
  intros Hs Hlen. unfold FieldRedactionRule.apply_redaction. rewrite Hs.
  by apply Nat.ltb_lt in Hlen as ->.
Qed.

(** The engine, however, asks the rule for the replacement of [None]
    before it looks at the payload, so that a truncating rule always
    yields the mask. *)
Lemma redact_field_replacement (rule : FieldRedactionRule.t) :
  FieldRedactionRule.strategy rule = TRUNCATE →
  FieldRedactionRule.apply_redaction rule VNone = "[REDACTED]".
Proof. intros Hs. unfold FieldRedactionRule.apply_redaction. by rewrite Hs. Qed.

(** C9 does not hold of the engine: a firing TRUNCATE rule applied to the
    sixteen-character leaf "alice@agency.gov" leaves "[REDACTED]" there,
    where the rule applied to the leaf itself gives "ali...gov". *)
Theorem truncate_rule_masks_long_string :
  AccessControlEngine.apply_redaction
    (AccessControlEngine.init Fixture.truncate_policy None) Fixture.alice CUI []
  = VDict [("user", VDict [("name", VStr "Alice Smith");
                           ("email", VStr "[REDACTED]")])]
  ∧ String.length "alice@agency.gov" = 16
  ∧ (∀ rule, In rule (ClassificationPolicy.field_redaction_rules
                       Fixture.truncate_policy) →
       FieldRedactionRule.strategy rule = TRUNCATE
       ∧ FieldRedactionRule.should_redact rule CUI [] = true
       ∧ FieldRedactionRule.apply_redaction rule (VStr "alice@agency.gov")
         = "ali...gov").
Proof.
  split; [vm_compute; reflexivity|]. split; [reflexivity|].
  intros rule [<-|[]]. by vm_compute.
Qed.

(** ** Path resolution *)

Section Paths.

Import RedactionEngine.

Lemma substring_prefix (s t : string) :
  String.substring 0 (String.length s) (s ++ t) = s.
Proof.
  induction s as [|c s IH]; simpl; [by destruct t|]. by rewrite IH.
Qed.

Lemma substring_whole (t : string) : String.substring 0 (String.length t) t = t.
Proof. induction t as [|c t IH]; simpl; [done|]. by rewrite IH. Qed.

Lemma substring_suffix (s t : string) :
  String.substring (String.length s) (String.length t) (s ++ t) = t.
Proof. induction s as [|c s IH]; simpl; [apply substring_whole|done]. Qed.

Lemma length_app_string (s t : string) :
  String.length (s ++ t) = String.length s + String.length t.
Proof. induction s as [|c s IH]; simpl; [done|]. by rewrite IH. Qed.

(** A segment written [key[*]] is recognised as a wildcard on [key]. *)
Lemma endswith_wildcard (key : string) : PyStr.endswith (key ++ "[*]") "[*]" = true.
Proof.
  unfold PyStr.endswith. rewrite length_app_string.
  replace (String.length key + String.length "[*]" - String.length "[*]")
    with (String.length key) by lia.
  rewrite substring_suffix.
  apply andb_true_iff. split; [apply Nat.leb_le; lia|done].
Qed.

Lemma drop_last_wildcard (key : string) : PyStr.drop_last 3 (key ++ "[*]") = key.
Proof.
  unfold PyStr.drop_last. rewrite length_app_string.
  change (String.length "[*]") with 3.
  replace (String.length key + 3 - 3) with (String.length key) by lia.
  apply substring_prefix.
Qed.

Lemma dict_set_same (key : string) (v : pyval) (d : list (string * pyval)) :
  Dict.get key d = Some v → Dict.set key v d = d.
Proof.
  induction d as [|[k w] d IH]; simpl; [done|].
  destruct (String.eqb k key); [by intros [= ->]|].
  intros H. by rewrite IH.
Qed.

Lemma dict_get_set (key : string) (v : pyval) (d : list (string * pyval)) :
  Dict.get key (Dict.set key v d) = Some v.
Proof.
  induction d as [|[k w] d IH]; simpl.
  - by rewrite String.eqb_refl.
  - destruct (String.eqb k key) eqn:E; simpl; by rewrite E.
Qed.

Lemma dict_get_set_ne (key key' : string) (v : pyval) (d : list (string * pyval)) :
  key ≠ key' → Dict.get key' (Dict.set key v d) = Dict.get key' d.
Proof.
  intros Hne. induction d as [|[k w] d IH]; simpl.
  - by apply String.eqb_neq in Hne as ->.
  - destruct (String.eqb_spec k key) as [->|Hk]; simpl.
    + by apply String.eqb_neq in Hne as ->.
    + by rewrite IH.
Qed.

(** The loop over the elements computes the disjunction of the flags and
    rewrites each element by itself. *)
Lemma visit_items_map (f : pyval → bool * pyval) (items : list pyval) :
  visit_items f items
  = (existsb (λ item, (f item).1) items, map (λ item, (f item).2) items).
Proof.
  unfold visit_items.
  enough (∀ b acc,
    foldl (λ st item, let r := f item in (st.1 || r.1, (st.2 ++ [r.2])%list))
      (b, acc) items
    = (b || existsb (λ item, (f item).1) items,
       (acc ++ map (λ item, (f item).2) items)%list)) as H by apply H.
  induction items as [|item items IH]; intros b acc; simpl.
  - by rewrite orb_false_r, app_nil_r.
  - by rewrite IH, orb_assoc, <- app_assoc.
Qed.

(** A call that reports no change has left its argument as it was. *)
Lemma unchanged_when_false (parts : list string) (redacted_value current : pyval) :
  (_set_path_redacted parts redacted_value current).1 = false →
  (_set_path_redacted parts redacted_value current).2 = current.
Proof.
  revert current. induction parts as [|head tail IH]; intros current; [done|].
  simpl. destruct (PyStr.endswith head "[*]").
  - destruct current as [| | | | |d]; try done.
    destruct (Dict.get (PyStr.drop_last 3 head) d) as [[| | | |items|]|] eqn:Hget;
      try done.
    rewrite visit_items_map. simpl. intros Hex.
    assert (map (λ item, (_set_path_redacted tail redacted_value item).2) items
            = items) as ->.
    { rewrite <- (map_id items) at 2. apply map_ext_in. intros item Hin.
      apply IH. apply not_true_iff_false. intros Ht.
      apply not_true_iff_false in Hex. apply Hex, existsb_exists. eauto. }
    by rewrite dict_set_same.
  - destruct current as [| | | | |d]; try done.
    destruct (Dict.get head d) as [child|] eqn:Hget; [|done].
    destruct tail as [|seg tail']; [done|].
    cbn [fst snd]. intros Hf. rewrite (IH _ Hf). by rewrite dict_set_same.
Qed.

(** A plain segment that is the last one replaces the entry it names. *)
Lemma leaf_is_replaced (head : string) (redacted_value : pyval)
    (d : list (string * pyval)) (old : pyval) :
  PyStr.endswith head "[*]" = false →
  Dict.get head d = Some old →
  _set_path_redacted [head] redacted_value (VDict d)
  = (true, VDict (Dict.set head redacted_value d)).
Proof. intros Hplain Hget. simpl. by rewrite Hplain, Hget. Qed.

(** A plain segment that is not the last one descends into the entry it
    names. *)
Lemma plain_segment_descends (head seg : string) (tail : list string)
    (redacted_value : pyval) (d : list (string * pyval)) (child : pyval) :
  PyStr.endswith head "[*]" = false →
  Dict.get head d = Some child →
  _set_path_redacted (head :: seg :: tail) redacted_value (VDict d)
  = ((_set_path_redacted (seg :: tail) redacted_value child).1,
     VDict (Dict.set head (_set_path_redacted (seg :: tail) redacted_value child).2 d)).
Proof.
  intros Hplain Hget. cbn [_set_path_redacted]. by rewrite Hplain, Hget.
Qed.

(** Replacing a value by itself changes nothing. *)
Lemma replace_at_same (keys : list string) (current x : pyval) :
  descend keys current = Some x → replace_at keys x current = current.
Proof.
  revert current. induction keys as [|key keys IH]; intros current; simpl.
  - by intros [= ->].
  - destruct current as [| | | | |d]; try done.
    destruct (Dict.get key d) as [child|] eqn:Hget; [|done].
    intros Hx. by rewrite (IH _ Hx), dict_set_same.
Qed.

(** Plain segments lead the call to the value they name; what the rest of
    the path does there is put back in place, and a segment that names
    nothing stops the call. *)
Lemma through_plain_segments (pre rest : list string) (redacted_value current : pyval) :
  Forall (λ seg, PyStr.endswith seg "[*]" = false) pre →
  rest ≠ [] →
  _set_path_redacted (pre ++ rest) redacted_value current
  = match descend pre current with
    | Some x =>
        ((_set_path_redacted rest redacted_value x).1,
         replace_at pre (_set_path_redacted rest redacted_value x).2 current)
    | None => (false, current)
    end.
Proof.
  intros Hplain Hrest. revert current.
  induction Hplain as [|seg pre Hseg Hplain IH]; intros current.
  - simpl. by destruct (_set_path_redacted rest redacted_value current).
  - change ((seg :: pre) ++ rest)%list with (seg :: (pre ++ rest))%list.
    cbn [_set_path_redacted descend replace_at]. rewrite Hseg.
    destruct current as [| | | | |d]; try done.
    destruct (Dict.get seg d) as [child|] eqn:Hget; [|done].
    destruct (pre ++ rest)%list as [|seg' more] eqn:Hmore.
    { by apply app_eq_nil in Hmore as [_ ?]. }
    rewrite IH. destruct (descend pre child) as [x|]; [done|].
    cbn [fst snd]. by rewrite dict_set_same.
Qed.

(** C8: a path with a segment [key[*]], reached through plain segments
    that name entries of nested dictionaries: when the entry [key] met
    there is a list, every element of that list is visited and rewritten
    by the remainder of the path applied to that element alone, a change
    is reported when one of them changed, and the rest of the payload is
    as it was.  When the value at [key] is missing or is not a list, when
    what is met there is not a dictionary, and when a plain segment names
    no entry, the call reports no change and returns the payload as it
    was.  A plain segment that ends the path replaces the entry it
    names, which is what the remainder of a path does to an element.  A
    call that reports no change leaves the payload as it was.  The
    function is total: no case raises. *)
Theorem wildcard_visits_every_element (pre : list string) (key : string)
    (tail : list string) (redacted_value : pyval) :
  Forall (λ seg, PyStr.endswith seg "[*]" = false) pre →
  (∀ current d items,
     descend pre current = Some (VDict d) →
     Dict.get key d = Some (VList items) →
     _set_path_redacted (pre ++ (key ++ "[*]") :: tail) redacted_value current
     = (existsb (λ item, (_set_path_redacted tail redacted_value item).1) items,
        replace_at pre
          (VDict (Dict.set key
                    (VList (map (λ item,
                                   (_set_path_redacted tail redacted_value item).2)
                              items))
                    d))
          current))
  ∧ (∀ current,
       (∀ d items, descend pre current = Some (VDict d) →
                   Dict.get key d ≠ Some (VList items)) →
       _set_path_redacted (pre ++ (key ++ "[*]") :: tail) redacted_value current
       = (false, current))
  ∧ (∀ head current,
       PyStr.endswith head "[*]" = false →
       (∀ d, descend pre current = Some (VDict d) → Dict.get head d = None) →
       _set_path_redacted (pre ++ head :: tail) redacted_value current
       = (false, current))
  ∧ (∀ leaf current d old,
       PyStr.endswith leaf "[*]" = false →
       descend pre current = Some (VDict d) →
       Dict.get leaf d = Some old →
       _set_path_redacted (pre ++ [leaf]) redacted_value current
       = (true, replace_at pre (VDict (Dict.set leaf redacted_value d)) current))
  ∧ (∀ parts current,
       (_set_path_redacted parts redacted_value current).1 = false →
       (_set_path_redacted parts redacted_value current).2 = current).
Proof.
  intros Hplain. split; [|split; [|split; [|split]]].
  - intros current d items Hd Hget.
    rewrite through_plain_segments, Hd by done. simpl.
    by rewrite endswith_wildcard, drop_last_wildcard, Hget, visit_items_map.
  - intros current Hmiss. rewrite through_plain_segments by done.
    destruct (descend pre current) as [x|] eqn:Hx; [|done].
    assert (_set_path_redacted ((key ++ "[*]") :: tail) redacted_value x
            = (false, x)) as ->.
    { simpl. rewrite endswith_wildcard, drop_last_wildcard.
      destruct x as [| | | | |d]; try done.
      destruct (Dict.get key d) as [[| | | |items|]|] eqn:Hget; try done.
      by destruct (Hmiss d items). }
    cbn [fst snd]. by rewrite replace_at_same.
  - intros head current Hhead Hmiss. rewrite through_plain_segments by done.
    destruct (descend pre current) as [x|] eqn:Hx; [|done].
    assert (_set_path_redacted (head :: tail) redacted_value x = (false, x)) as ->.
    { simpl. rewrite Hhead. destruct x as [| | | | |d]; try done.
      by rewrite (Hmiss d). }
    cbn [fst snd]. by rewrite replace_at_same.
  - intros leaf current d old Hleaf Hd Hget.
    rewrite through_plain_segments, Hd by done.
    by rewrite (leaf_is_replaced leaf redacted_value d old).
  - intros parts current. apply unchanged_when_false.
Qed.

(** At the level of a rule: when the path of a field does not resolve in
    the payload, [redact_field] returns the payload as it was, whatever
    the rules of the policy are. *)
Lemma redact_field_unresolved (self : RedactionEngine.t) (data : pyval)
    (field_path : string) (user_clearance : ClassificationLevel)
    (user_compartments : list Compartment) :
  (∀ redacted_value,
     (_set_path_redacted (PyStr.split "." field_path) redacted_value data).1 = false) →
  redact_field self data field_path user_clearance user_compartments = data.
Proof.
  intros Hmiss. unfold redact_field.
  induction (ClassificationPolicy.field_redaction_rules (policy self))
    as [|rule rules IH]; simpl; [done|].
  destruct (negb (String.eqb (FieldRedactionRule.field_path rule) field_path));
    [exact IH|].
  destruct (negb (FieldRedactionRule.should_redact rule user_clearance
                    user_compartments)); [exact IH|].
  by rewrite unchanged_when_false.
Qed.

End Paths.

(** The wildcard rule of the tests on the incident payload, from its
    root: the path goes through the entry [incident], both e-mail
    addresses are masked, the names are untouched. *)
Lemma wildcard_visits_every_element_witness :
  Forall (λ seg, PyStr.endswith seg "[*]" = false) ["incident"]
  ∧ RedactionEngine._set_path_redacted ["incident"; "affected_users[*]"; "email"]
      (VStr "[REDACTED]") Fixture.incident
    = (true,
       VDict
         [("incident",
           VDict
             [("affected_users",
               VList [VDict [("name", VStr "Alice"); ("email", VStr "[REDACTED]")];
                      VDict [("name", VStr "Bob");
                             ("email", VStr "[REDACTED]")]])])]).
Proof.
  pose (items := [VDict [("name", VStr "Alice"); ("email", VStr "alice@agency.gov")];
                  VDict [("name", VStr "Bob"); ("email", VStr "bob@agency.gov")]]).
  assert (Forall (λ seg, PyStr.endswith seg "[*]" = false) ["incident"]) as Hplain
    by (constructor; [reflexivity|constructor]).
  split; [exact Hplain|].
  exact (proj1 (wildcard_visits_every_element ["incident"] "affected_users"
                  ["email"] (VStr "[REDACTED]") Hplain)
           Fixture.incident [("affected_users", VList items)] items
           eq_refl eq_refl).
Defined.

(** ** Aggregation and its signature *)

Section Aggregation.

Import ClassificationAggregationResult.

Lemma foldl_add_all (s : gset Compartment) (xs : list Compartment) :
  foldl (λ s comp, s ∪ {[ comp ]}) s xs = s ∪ list_to_set xs.
Proof.
  revert s. induction xs as [|x xs IH]; intros s; simpl; [set_solver|].
  rewrite IH. set_solver.
Qed.

Lemma visit_classifications (a : acc) (e : Entity.t) :
  classifications (visit a e)
  = (classifications a ++ option_list (Entity.classification e))%list.
Proof.
  unfold visit. simpl. destruct (Entity.classification e); simpl; [done|].
  by rewrite app_nil_r.
Qed.

Lemma visit_portion_markings (a : acc) (e : Entity.t) :
  portion_markings_set (visit a e) = portion_markings_set a ∪ markings_of e.
Proof.
  unfold visit, markings_of. simpl.
  destruct (Entity.portion_markings e) as [[|m ms]|]; simpl; set_solver.
Qed.

Lemma visit_compartments (a : acc) (e : Entity.t) :
  compartments_set (visit a e) = compartments_set a ∪ compartments_of e.
Proof.
  unfold visit, compartments_of. simpl.
  destruct (Entity.compartments e) as [[|x xs]|]; simpl; [set_solver| |set_solver].
  rewrite foldl_add_all. set_solver.
Qed.

Lemma foldl_visit_classifications (a : acc) (es : list Entity.t) :
  classifications (foldl visit a es)
  = (classifications a ++ omap Entity.classification es)%list.
Proof.
  revert a. induction es as [|e es IH]; intros a; simpl.
  - by rewrite app_nil_r.
  - rewrite IH, visit_classifications.
    destruct (Entity.classification e); simpl; by rewrite <- app_assoc.
Qed.

Lemma foldl_visit_portion_markings (a : acc) (es : list Entity.t) :
  portion_markings_set (foldl visit a es)
  = portion_markings_set a ∪ ⋃ (markings_of <$> es).
Proof.
  revert a. induction es as [|e es IH]; intros a; simpl; [set_solver|].
  rewrite IH, visit_portion_markings. set_solver.
Qed.

Lemma foldl_visit_compartments (a : acc) (es : list Entity.t) :
  compartments_set (foldl visit a es)
  = compartments_set a ∪ ⋃ (compartments_of <$> es).
Proof.
  revert a. induction es as [|e es IH]; intros a; simpl; [set_solver|].
  rewrite IH, visit_compartments. set_solver.
Qed.

Lemma union_list_perm `{Countable K} (xs ys : list (gset K)) :
  xs ≡ₚ ys → ⋃ xs = ⋃ ys.
Proof.
  intros Hp. apply set_eq. intros x. rewrite !elem_of_union_list.
  by setoid_rewrite Hp.
Qed.

(** [max] returns an element of greatest key. *)
Lemma max_from_spec {A} (key : A → Z) (best : A) (xs : list A) :
  (max_from key best xs = best ∨ max_from key best xs ∈ xs)
  ∧ (key best ≤ key (max_from key best xs))%Z
  ∧ ∀ x, x ∈ xs → (key x ≤ key (max_from key best xs))%Z.
Proof.
  revert best. induction xs as [|y xs IH]; intros best; simpl.
  - split; [by left|]. split; [lia|]. by intros x Hx%elem_of_nil.
  - destruct (IH (if (key best <? key y)%Z then y else best)) as (Hin & Hb & Hall).
    destruct (Z.ltb_spec (key best) (key y)).
    + split; [right; destruct Hin as [->|?]; [left|by right]|].
      split; [lia|]. intros x [->|Hx]%elem_of_cons; [lia|by apply Hall].
    + split; [destruct Hin as [->|?]; [by left|right; by right]|].
      split; [lia|]. intros x [->|Hx]%elem_of_cons; [lia|by apply Hall].
Qed.

Lemma py_max_spec {A} (key : A → Z) (d : A) (xs : list A) :
  xs ≠ [] →
  py_max key d xs ∈ xs ∧ ∀ x, x ∈ xs → (key x ≤ key (py_max key d xs))%Z.
Proof.
  destruct xs as [|y xs]; [done|]. intros _. simpl.
  destruct (max_from_spec key y xs) as (Hin & Hb & Hall).
  split.
  - destruct Hin as [->|?]; [left|by right].
  - intros x [->|Hx]%elem_of_cons; [done|by apply Hall].
Qed.

(** With an injective key the greatest element is the same whatever the
    order of the list. *)
Lemma py_max_perm {A} (key : A → Z) `{!Inj (=) (=) key} (d : A) (xs ys : list A) :
  xs ≡ₚ ys → py_max key d xs = py_max key d ys.
Proof.
  intros Hp. destruct xs as [|x xs].
  - by apply Permutation_nil_l in Hp as ->.
  - assert (ys ≠ []) as Hys by (intros ->; by apply Permutation_nil_r in Hp).
    destruct (py_max_spec key d (x :: xs)) as [Hin1 Hmax1]; [done|].
    destruct (py_max_spec key d ys Hys) as [Hin2 Hmax2].
    apply (inj key). apply Z.le_antisymm.
    + apply Hmax2. by rewrite <- Hp.
    + apply Hmax1. by rewrite Hp.
Qed.

Lemma dumps_str_list (l : list string) :
  Json.dumps (VList (map VStr l))
  = "[" ++ PyStr.join "," (map Json.encode_str l) ++ "]".
Proof. simpl. by rewrite map_map. Qed.

Lemma sorted_id_sorted {A} (k : A → string) (xs : list A) :
  sorted id (map k (sorted k xs)) = map k (sorted k xs).
Proof.
  symmetry. apply (sorted_unique id); [|done].
  apply (StronglySorted_fmap k (key_le k) (key_le id)); [done|].
  apply sorted_strongly_sorted.
Qed.

Lemma sorted_idempotent (l : list string) : sorted id (sorted id l) = sorted id l.
Proof. symmetry. apply (sorted_unique id); [apply sorted_strongly_sorted|done]. Qed.

Lemma dumps_signing_payload (self : t) :
  Json.dumps (signing_payload self)
  = canonical_payload (highest_classification self)
      (sorted id (all_portion_markings self))
      (sorted id (map Comp.value (all_compartments self)))
      (computed_from_entity_count self).
Proof.
  unfold signing_payload, canonical_payload.
  change (Json.dumps (VDict ?entries))
    with ("{" ++ PyStr.join ","
                   (map Json.encode_item
                      (sorted fst
                         (map (λ kv : string * pyval, (kv.1, Json.dumps kv.2))
                            entries))) ++ "}").
  cbn [map fst snd]. rewrite !dumps_str_list.
  generalize ("[" ++ PyStr.join ","
                       (map Json.encode_str (sorted id (all_portion_markings self)))
              ++ "]").
  generalize ("[" ++ PyStr.join ","
                       (map Json.encode_str
                          (sorted id (map Comp.value (all_compartments self))))
              ++ "]").
  change (Json.dumps (VInt ?z)) with (Json.encode_int z).
  change (Json.dumps (VStr ?s)) with (Json.encode_str s).
  generalize (Json.encode_int (computed_from_entity_count self)).
  generalize (Json.encode_str (Level.value (highest_classification self))).
  intros b1 b2 b3 b4. vm_compute. reflexivity.
Qed.

Variable hmac_sha256_hexdigest : string → string → string.

(** The fields of the result, as functions of the list of entities. *)
Lemma aggregate_fields (now : datetime) (es : list Entity.t)
    (signing_key : option string) :
  let r := aggregate hmac_sha256_hexdigest now es signing_key in
  highest_classification r
  = py_max Level.numeric_value UNCLASSIFIED (omap Entity.classification es)
  ∧ all_classifications r = omap Entity.classification es
  ∧ all_portion_markings r = sorted id (elements (⋃ (markings_of <$> es)))
  ∧ all_compartments r
    = sorted Comp.value (elements (⋃ (compartments_of <$> es)))
  ∧ computed_from_entity_count r = Z.of_nat (length es)
  ∧ computed_at r = now.
Proof.
  assert (classifications (foldl visit acc0 es) = omap Entity.classification es)
    as Hc by by rewrite foldl_visit_classifications.
  assert (portion_markings_set (foldl visit acc0 es) = ⋃ (markings_of <$> es))
    as Hm by (rewrite foldl_visit_portion_markings; simpl; by rewrite (left_id_L ∅ _)).
  assert (compartments_set (foldl visit acc0 es) = ⋃ (compartments_of <$> es))
    as Hx by (rewrite foldl_visit_compartments; simpl; by rewrite (left_id_L ∅ _)).
  cbv zeta. unfold aggregate. rewrite Hc, Hm, Hx.
  destruct signing_key as [key|]; [|done].
  by destruct (String.eqb key EmptyString).
Qed.

(** The fields that are signed do not depend on the order of the
    entities. *)
Lemma aggregate_fields_perm (now1 now2 : datetime) (es1 es2 : list Entity.t)
    (signing_key : option string) :
  es1 ≡ₚ es2 →
  let r1 := aggregate hmac_sha256_hexdigest now1 es1 signing_key in
  let r2 := aggregate hmac_sha256_hexdigest now2 es2 signing_key in
  highest_classification r1 = highest_classification r2
  ∧ all_portion_markings r1 = all_portion_markings r2
  ∧ all_compartments r1 = all_compartments r2
  ∧ computed_from_entity_count r1 = computed_from_entity_count r2.
Proof.
  intros Hp. cbv zeta.
  destruct (aggregate_fields now1 es1 signing_key) as (-> & _ & -> & -> & -> & _).
  destruct (aggregate_fields now2 es2 signing_key) as (-> & _ & -> & -> & -> & _).
  repeat split.
  - apply py_max_perm; [apply _|]. by rewrite Hp.
  - by rewrite (union_list_perm (markings_of <$> es1) (markings_of <$> es2))
      by by rewrite Hp.
  - by rewrite (union_list_perm (compartments_of <$> es1) (compartments_of <$> es2))
      by by rewrite Hp.
  - by rewrite Hp.
Qed.

(** The signature of the result in terms of its other fields. *)
Lemma aggregate_signature (now : datetime) (es : list Entity.t)
    (signing_key : option string) :
  let r := aggregate hmac_sha256_hexdigest now es signing_key in
  signature r
  = match signing_key with
    | Some key =>
        if String.eqb key EmptyString then None
        else Some (hmac_sha256_hexdigest key
                     (canonical_payload (highest_classification r)
                        (all_portion_markings r)
                        (map Comp.value (all_compartments r))
                        (computed_from_entity_count r)))
    | None => None
    end.
Proof.
  cbv zeta. unfold aggregate. destruct signing_key as [key|]; [|done].
  destruct (String.eqb key EmptyString); [done|].
  cbn [negb with_signature signature]. unfold compute_signature.
  rewrite dumps_signing_payload.
  cbn [highest_classification all_portion_markings all_compartments
       computed_from_entity_count].
  by rewrite sorted_id_sorted, sorted_idempotent.
Qed.

(** C4: two lists of entities that are permutations of each other give,
    under the same key, the same signature, whatever the two times of
    computation; and the signature, when a key is given, is the digest
    under that key of the canonical JSON text made of the compartment
    codes (sorted), the portion markings (sorted), the number of entities
    and the code of the highest classification, and of nothing else. *)
Theorem signature_is_order_independent (now1 now2 : datetime)
    (es1 es2 : list Entity.t) (signing_key : option string) :
  es1 ≡ₚ es2 →
  signature (aggregate hmac_sha256_hexdigest now1 es1 signing_key)
  = signature (aggregate hmac_sha256_hexdigest now2 es2 signing_key)
  ∧ ∀ key,
      signing_key = Some key → key ≠ EmptyString →
      let r := aggregate hmac_sha256_hexdigest now1 es1 signing_key in
      signature r
      = Some (hmac_sha256_hexdigest key
                (canonical_payload (highest_classification r)
                   (all_portion_markings r)
                   (map Comp.value (all_compartments r))
                   (Z.of_nat (length es1))))
      ∧ StronglySorted PyStr.le (all_portion_markings r)
      ∧ StronglySorted PyStr.le (map Comp.value (all_compartments r)).
Proof.
  intros Hp. split.
  - rewrite !aggregate_signature.
    destruct (aggregate_fields_perm now1 now2 es1 es2 signing_key Hp)
      as (-> & -> & -> & ->).
    done.
  - intros key -> Hkey. cbv zeta. rewrite aggregate_signature.
    apply String.eqb_neq in Hkey as ->.
    destruct (aggregate_fields now1 es1 (Some key)) as (_ & _ & Hm & Hx & -> & _).
    split; [done|]. rewrite Hm, Hx. split.
    + apply (sorted_strongly_sorted id).
    + apply (StronglySorted_fmap Comp.value (key_le Comp.value) PyStr.le); [done|].
      apply sorted_strongly_sorted.
Qed.

End Aggregation.

(** The entities of the aggregation test, in two orders and at two
    times, under one key. *)
Lemma signature_is_order_independent_witness :
  Fixture.banner_entities ≡ₚ Fixture.banner_entities_rotated
  ∧ ClassificationAggregationResult.signature
      (ClassificationAggregationResult.aggregate Fixture.tagged 0%Z
         Fixture.banner_entities (Some "k"))
    = ClassificationAggregationResult.signature
        (ClassificationAggregationResult.aggregate Fixture.tagged 86400%Z
           Fixture.banner_entities_rotated (Some "k"))
  ∧ ClassificationAggregationResult.signature
      (ClassificationAggregationResult.aggregate Fixture.tagged 0%Z
         Fixture.banner_entities (Some "k"))
    = Some (Fixture.tagged "k"
              (canonical_payload TOP_SECRET
                 ["//HUMINT"; "//NOCONTRACT"; "//NOFORN"] ["HUMINT"; "NOFORN"] 3)).
Proof.
  assert (Fixture.banner_entities ≡ₚ Fixture.banner_entities_rotated) as Hp.
  { symmetry.
    exact (Permutation_cons_append
             [Fixture.entity SECRET ["//NOFORN"] [NOFORN];
              Fixture.entity TOP_SECRET ["//HUMINT"] [HUMINT]]
             (Fixture.entity SECRET ["//NOCONTRACT"] [])). }
  split; [exact Hp|].
  destruct (signature_is_order_independent Fixture.tagged 0%Z 86400%Z
              Fixture.banner_entities Fixture.banner_entities_rotated (Some "k") Hp)
    as [Hsame Hwhat].
  split; [exact Hsame|].
  destruct (Hwhat "k" eq_refl ltac:(discriminate)) as [Hsig _].
  rewrite Hsig. vm_compute. reflexivity.
Defined.

(** ** The integration tests, replayed on the embedding *)

Section Replay.

Let redacting := AccessControlEngine.init Fixture.policy_with_redaction None.

Example test_field_redaction_applied_simple :
  AccessControlEngine.apply_redaction redacting Fixture.alice CUI []
  = VDict [("user", VDict [("name", VStr "Alice Smith");
                           ("email", VStr "[REDACTED]")])].
Proof. vm_compute. reflexivity. Qed.

Example test_field_redaction_list_wildcard :
  AccessControlEngine.apply_redaction redacting Fixture.incident SECRET [NOFORN]
  = VDict
      [("incident",
        VDict
          [("affected_users",
            VList [VDict [("name", VStr "Alice"); ("email", VStr "[REDACTED]")];
                   VDict [("name", VStr "Bob"); ("email", VStr "[REDACTED]")]])])].
Proof. vm_compute. reflexivity. Qed.

Example test_field_not_redacted_when_compartment_sufficient :
  AccessControlEngine.apply_redaction redacting Fixture.incident SECRET
    [NOFORN; HUMINT]
  = Fixture.incident.
Proof. vm_compute. reflexivity. Qed.

Example test_allow_matching_clearance_and_compartments :
  ∃ d,
    AccessControlEngine.make_access_decision Fixture.engine 1%N 0%Z 7%N SECRET
      [NOFORN; HUMINT] ["analyst"] true false SECRET [NOFORN; HUMINT] None
      "trusted" true = Returns d
    ∧ AccessDecision.allowed d = true
    ∧ AccessDecision.reason d = "All access control checks passed"
    ∧ AccessDecision.obligations d = [obligation AUDIT_ACCESS "Accessing S data"]
    ∧ AccessDecision.portion_markings d = ["//NOFORN"; "//HUMINT"].
Proof. eexists. repeat split; vm_compute; reflexivity. Qed.

Example test_need_to_know :
  AccessControlEngine.make_access_decision Fixture.engine 1%N 0%Z 7%N SECRET
    [] ["analyst"] true false SECRET []
    (Some [("required_roles", VList [VStr "auditor"; VStr "analyst"])])
    "trusted" true
  = Returns (AccessControlEngine.allow 1%N 0%Z SECRET [] true SECRET [] "trusted")
  ∧ AccessDecision.reason <$>
      (match AccessControlEngine.make_access_decision Fixture.engine 1%N 0%Z 7%N
               SECRET [] ["analyst"] true false SECRET []
               (Some [("required_roles", VList [VStr "auditor"])]) "trusted" true
       with Returns d => Some d | Raises _ => None end)
    = Some "Need-to-know denied"
  ∧ AccessControlEngine.make_access_decision Fixture.engine 1%N 0%Z 7%N SECRET
      [] ["analyst"] true false SECRET []
      (Some [("required_roles", VInt 5)]) "trusted" true
    = Raises TypeError.
Proof. repeat split; vm_compute; reflexivity. Qed.

Example test_aggregate_multiple_classifications :
  let r := ClassificationAggregationResult.aggregate Fixture.tagged 0%Z
             Fixture.banner_entities None in
  ClassificationAggregationResult.highest_classification r = TOP_SECRET
  ∧ ClassificationAggregationResult.all_classifications r
    = [SECRET; TOP_SECRET; SECRET]
  ∧ ClassificationAggregationResult.all_portion_markings r
    = ["//HUMINT"; "//NOCONTRACT"; "//NOFORN"]
  ∧ ClassificationAggregationResult.computed_from_entity_count r = 3%Z
  ∧ ClassificationAggregationResult.signature r = None.
Proof. repeat split; vm_compute; reflexivity. Qed.

End Replay.

(** * Further properties of the code *)

(** ** Levels, compartments and markings *)

(** X1: [can_access] is the dominance order of the levels: reflexive,
    transitive, antisymmetric and total, with TS//SCI on top and
    UNCLASSIFIED at the bottom. *)
Theorem can_access_total_order :
  (∀ a, Level.can_access a a = true)
  ∧ (∀ a b c, Level.can_access a b = true → Level.can_access b c = true →
              Level.can_access a c = true)
  ∧ (∀ a b, Level.can_access a b = true → Level.can_access b a = true → a = b)
  ∧ (∀ a b, Level.can_access a b = true ∨ Level.can_access b a = true)
  ∧ (∀ a, Level.can_access TS_SCI a = true
          ∧ Level.can_access a UNCLASSIFIED = true).
Proof.
  unfold Level.can_access. repeat split.
  - intros a. apply Z.leb_refl.
  - intros a b c H1%Z.leb_le H2%Z.leb_le. apply Z.leb_le. lia.
  - intros a b H1%Z.leb_le H2%Z.leb_le. apply (inj Level.numeric_value). lia.
  - intros a b. rewrite !Z.leb_le. lia.
  - apply Z.leb_le. pose proof (numeric_value_range a). change (Level.numeric_value TS_SCI) with 5%Z. lia.
  - apply Z.leb_le. pose proof (numeric_value_range a). change (Level.numeric_value UNCLASSIFIED) with 0%Z. lia.
Qed.

(** X2: the constructors of the two enumerations invert [value]: a code
    is accepted exactly when it is the code of a member, and then it
    yields that member. *)
Theorem enum_codes_round_trip :
  (∀ l, level_of_value (Level.value l) = Some l)
  ∧ (∀ code l, level_of_value code = Some l → Level.value l = code)
  ∧ (∀ c, compartment_of_value (Comp.value c) = Some c)
  ∧ (∀ code c, compartment_of_value code = Some c → Comp.value c = code).
Proof.
  repeat split.
  - by intros [].
  - intros code l H. apply find_some in H as [_ H]. by apply String.eqb_eq.
  - by intros [].
  - intros code c H. apply find_some in H as [_ H]. by apply String.eqb_eq.
Qed.

Section Checks.

Import AccessControlEngine.

Variables (self : AccessControlEngine.t) (fresh : UUID) (now : datetime)
          (user_id : UUID).

(** X3: for a subject whose account and session are in order, and a
    resource without need-to-know attributes, the decision point allows
    exactly what [ClassificationMarking.can_be_accessed_by] accepts for the
    marking of the resource. *)
Theorem marking_access_agrees_with_decision
    (user_clearance : ClassificationLevel) (user_compartments : list Compartment)
    (user_roles : list string) (user_mfa_verified : bool)
    (resource_classification : ClassificationLevel)
    (resource_compartments : list Compartment) (markings : list string)
    (device_posture : string) :
  ∃ d,
    make_access_decision self fresh now user_id user_clearance user_compartments
      user_roles user_mfa_verified false resource_classification
      resource_compartments None device_posture true = Returns d
    ∧ AccessDecision.allowed d
      = ClassificationMarking.can_be_accessed_by
          {| ClassificationMarking.level := resource_classification;
             ClassificationMarking.compartments := resource_compartments;
             ClassificationMarking.portion_markings := markings |}
          user_clearance user_compartments.
Proof.
  unfold make_access_decision, ClassificationMarking.can_be_accessed_by,
    Level.can_access. simpl.
  rewrite (Z.ltb_antisym (Level.numeric_value resource_classification)).
  destruct (Level.numeric_value resource_classification
              <=? Level.numeric_value user_clearance)%Z; simpl; [|eauto].
  destruct (issubset resource_compartments user_compartments); simpl; eauto.
Qed.

Lemma existsb_role_in (user_roles required : list string) :
  existsb (role_in user_roles) (VStr <$> required) = true ↔
  ∃ r, r ∈ required ∧ r ∈ user_roles.
Proof.
  rewrite existsb_exists. split.
  - intros (v & Hv & Hr). apply list_elem_of_In, list_elem_of_fmap in Hv as (r & -> & Hin).
    simpl in Hr. apply bool_decide_eq_true in Hr. eauto.
  - intros (r & Hin & Hr). exists (VStr r). split.
    + apply list_elem_of_In, list_elem_of_fmap. eauto.
    + simpl. by apply bool_decide_eq_true.
Qed.

(** The need-to-know check on attributes whose entry [required_roles],
    when there is one, is a list of role names. *)
Lemma check_need_to_know_roles (user_roles : list string)
    (attrs : list (string * pyval)) (required : option (list string)) :
  Dict.get "required_roles" attrs = (λ rs, VList (VStr <$> rs)) <$> required →
  ∃ ok,
    _check_need_to_know self user_roles attrs = Returns ok
    ∧ (ok = true ↔ ∀ rs, required = Some rs → holds_required_role user_roles rs).
Proof.
  intros Hget. unfold _check_need_to_know, holds_required_role.
  destruct (nonempty attrs) eqn:Hne; simpl.
  - rewrite Hget. destruct required as [rs|];
      cbn [fmap option_fmap option_map from_option id].
    + assert (truthy (VList (VStr <$> rs)) = nonempty rs) as -> by by destruct rs.
      change (iterate (VList (VStr <$> rs))) with (Returns (VStr <$> rs)).
      destruct rs as [|r rs]; cbn [nonempty].
      * exists true. split; [done|]. split; [|done]. intros _ ? [= <-]. by left.
      * destruct (existsb (role_in user_roles) (VStr <$> r :: rs)) eqn:Hex;
          cbn [negb]; eexists; (split; [reflexivity|]).
        -- split; [|done]. intros _ ? [= <-]. right.
           by apply existsb_role_in.
        -- split; [done|]. intros H. destruct (H _ eq_refl) as [?|Hr]; [done|].
           apply existsb_role_in in Hr. congruence.
    + exists true. split; [done|]. split; [|done]. by intros _ ? ?.
  - exists true. split; [done|]. split; [|done]. intros _ rs ->.
    destruct attrs; [|done]. done.
Qed.

(** X4: access is allowed exactly when every check passes: the account
    is not suspended, the session is active, the clearance dominates the
    classification, every compartment of the resource is held, and, when
    the attributes name required roles, the subject holds one of them (an
    empty list of roles requires nothing).  Here [required_roles], when
    present, is a list of role names. *)
Theorem allowed_iff_every_check_passes
    (user_clearance : ClassificationLevel) (user_compartments : list Compartment)
    (user_roles : list string) (user_mfa_verified user_account_suspended : bool)
    (resource_classification : ClassificationLevel)
    (resource_compartments : list Compartment)
    (resource_need_to_know_attrs : option (list (string * pyval)))
    (device_posture : string) (session_active : bool)
    (required : option (list string)) :
  match resource_need_to_know_attrs with
  | Some attrs => Dict.get "required_roles" attrs
  | None => None
  end = (λ rs, VList (VStr <$> rs)) <$> required →
  ∃ d,
    make_access_decision self fresh now user_id user_clearance user_compartments
      user_roles user_mfa_verified user_account_suspended resource_classification
      resource_compartments resource_need_to_know_attrs device_posture
      session_active = Returns d
    ∧ (AccessDecision.allowed d = true ↔
         user_account_suspended = false
         ∧ session_active = true
         ∧ (Level.numeric_value resource_classification
              ≤ Level.numeric_value user_clearance)%Z
         ∧ resource_compartments ⊆ user_compartments
         ∧ ∀ rs, required = Some rs → holds_required_role user_roles rs).
Proof.
  intros Hget. unfold make_access_decision.
  destruct user_account_suspended; [eexists; split; [done|]; simpl; naive_solver|].
  destruct session_active; simpl; [|eexists; split; [done|]; simpl; naive_solver].
  destruct (Z.ltb_spec (Level.numeric_value user_clearance)
              (Level.numeric_value resource_classification));
    [eexists; split; [done|]; simpl; split; [done|]; intros (_ & _ & ? & _); lia|].
  destruct (issubset resource_compartments user_compartments) eqn:Hsub; simpl;
    [apply issubset_spec in Hsub|apply issubset_false in Hsub];
    [|eexists; split; [done|]; simpl; naive_solver].
  destruct resource_need_to_know_attrs as [attrs|].
  - destruct (check_need_to_know_roles user_roles attrs required Hget)
      as (ok & Hok & Hiff).
    destruct (nonempty attrs) eqn:Hne.
    + rewrite Hok. destruct ok; simpl; eexists; (split; [done|]); simpl.
      * split; [|done]. intros _. repeat split; try done. by apply Hiff.
      * split; [done|]. intros (_ & _ & _ & _ & Hall). by apply Hiff in Hall.
    + eexists; split; [done|]. simpl. split; [|done]. intros _.
      repeat split; try done. destruct attrs; [|done]. simpl in Hget.
      destruct required; [done|]. done.
  - eexists; split; [done|]. simpl. split; [|done]. intros _.
    repeat split; try done. destruct required; [done|]. done.
Qed.

(** X5: the reason of a returned decision names the first check that
    failed: each of the four denial messages with a fixed beginning is
    given exactly when the checks before it passed and its own check
    failed; "Need-to-know denied" is given only after the four other
    checks passed; and the message of success goes with allowed
    decisions and no other. *)
Theorem reason_names_first_failed_check
    (user_clearance : ClassificationLevel) (user_compartments : list Compartment)
    (user_roles : list string) (user_mfa_verified user_account_suspended : bool)
    (resource_classification : ClassificationLevel)
    (resource_compartments : list Compartment)
    (resource_need_to_know_attrs : option (list (string * pyval)))
    (device_posture : string) (session_active : bool) (d : AccessDecision.t) :
  make_access_decision self fresh now user_id user_clearance user_compartments
    user_roles user_mfa_verified user_account_suspended resource_classification
    resource_compartments resource_need_to_know_attrs device_posture
    session_active = Returns d →
  (AccessDecision.reason d = "User account is suspended" ↔
     user_account_suspended = true)
  ∧ (AccessDecision.reason d = "Session is not active" ↔
       user_account_suspended = false ∧ session_active = false)
  ∧ (String.prefix "Insufficient clearance: " (AccessDecision.reason d) = true ↔
       user_account_suspended = false ∧ session_active = true
       ∧ (Level.numeric_value user_clearance
            < Level.numeric_value resource_classification)%Z)
  ∧ (String.prefix "Missing compartments: " (AccessDecision.reason d) = true ↔
       user_account_suspended = false ∧ session_active = true
       ∧ (Level.numeric_value resource_classification
            ≤ Level.numeric_value user_clearance)%Z
       ∧ ¬ resource_compartments ⊆ user_compartments)
  ∧ (AccessDecision.reason d = "Need-to-know denied" →
       user_account_suspended = false ∧ session_active = true
       ∧ (Level.numeric_value resource_classification
            ≤ Level.numeric_value user_clearance)%Z
       ∧ resource_compartments ⊆ user_compartments
       ∧ AccessDecision.allowed d = false)
  ∧ (AccessDecision.reason d = "All access control checks passed" ↔
       AccessDecision.allowed d = true).
Proof.
  unfold make_access_decision.
  destruct user_account_suspended.
  { intros [= <-]. cbn [decision_with_defaults AccessDecision.reason
                        AccessDecision.allowed]. by repeat split; intros; destruct_and?. }
  destruct session_active; cbn [negb].
  2:{ intros [= <-]. cbn [decision_with_defaults AccessDecision.reason
                          AccessDecision.allowed]. by repeat split; intros; destruct_and?. }
  destruct (Z.ltb_spec (Level.numeric_value user_clearance)
              (Level.numeric_value resource_classification)) as [Hlt|Hge].
  { intros [= <-]. cbn [decision_with_defaults AccessDecision.reason
                        AccessDecision.allowed].
    by repeat split; intros; destruct_and?; try done; try lia. }
  destruct (issubset resource_compartments user_compartments) eqn:Hsub; cbn [negb];
    [apply issubset_spec in Hsub|apply issubset_false in Hsub].
  2:{ intros [= <-]. cbn [decision_with_defaults AccessDecision.reason
                          AccessDecision.allowed].
      repeat split; intros; destruct_and?; try done; try lia.
      apply String.prefix_correct. apply (substring_prefix "Missing compartments: "). }
  intros Hd.
  assert (d = decision_with_defaults fresh now false "Need-to-know denied"
                user_clearance user_compartments resource_classification
                resource_compartments
          ∨ d = allow fresh now user_clearance user_compartments user_mfa_verified
                  resource_classification resource_compartments device_posture)
    as [-> | ->].
  { revert Hd. repeat case_check; intros [= <-] || discriminate; eauto. }
  - cbn [decision_with_defaults AccessDecision.reason AccessDecision.allowed].
    repeat split; intros; destruct_and?; try done; try lia.
  - cbn [allow AccessDecision.reason AccessDecision.allowed].
    repeat split; intros; destruct_and?; try done; try lia.
Qed.

(** X6: neither the device posture nor the MFA status decides access:
    two calls that differ in them only agree on whether a decision is
    returned, on [allowed] and on the reason. *)
Theorem posture_and_mfa_never_decide
    (user_clearance : ClassificationLevel) (user_compartments : list Compartment)
    (user_roles : list string) (mfa mfa' user_account_suspended : bool)
    (resource_classification : ClassificationLevel)
    (resource_compartments : list Compartment)
    (resource_need_to_know_attrs : option (list (string * pyval)))
    (posture posture' : string) (session_active : bool) :
  match
    make_access_decision self fresh now user_id user_clearance user_compartments
      user_roles mfa user_account_suspended resource_classification
      resource_compartments resource_need_to_know_attrs posture session_active,
    make_access_decision self fresh now user_id user_clearance user_compartments
      user_roles mfa' user_account_suspended resource_classification
      resource_compartments resource_need_to_know_attrs posture' session_active
  with
  | Returns d, Returns d' =>
      AccessDecision.allowed d = AccessDecision.allowed d'
      ∧ AccessDecision.reason d = AccessDecision.reason d'
  | Raises e, Raises e' => e = e'
  | _, _ => False
  end.
Proof.
  unfold make_access_decision.
  destruct user_account_suspended; [done|].
  destruct session_active; [|done]. cbn [negb].
  destruct (Level.numeric_value user_clearance
              <? Level.numeric_value resource_classification)%Z; [done|].
  destruct (issubset resource_compartments user_compartments); [|done]. cbn [negb].
  destruct resource_need_to_know_attrs as [attrs|]; [|done].
  destruct (nonempty attrs); [|done].
  destruct (_check_need_to_know self user_roles attrs) as [[]|e]; done.
Qed.

Lemma in_chars (v : pyval) (s : string) :
  In v (chars s) ↔
  ∃ c, v = VStr (String c EmptyString) ∧ In c (list_ascii_of_string s).
Proof.
  induction s as [|c s IH]; simpl; [naive_solver|].
  rewrite IH. split.
  - intros [<-|(c' & -> & Hc)]; eauto.
  - intros (c' & -> & [->|Hc]); eauto.
Qed.

(** X7: the edges of the need-to-know check.  Empty attributes, a
    missing entry [required_roles] and an entry that is false (an empty
    list, [None], zero, the empty string) all pass; the keys other than
    [required_roles] are never consulted; a non-empty string is read
    character by character, so that it is satisfied by the roles that
    are one of its characters and by no other role; and a true value
    that cannot be iterated raises [TypeError]. *)
Theorem need_to_know_edge_cases (user_roles : list string) :
  _check_need_to_know self user_roles [] = Returns true
  ∧ (∀ attrs,
       Dict.get "required_roles" attrs = None →
       _check_need_to_know self user_roles attrs = Returns true)
  ∧ (∀ attrs v,
       Dict.get "required_roles" attrs = Some v → truthy v = false →
       _check_need_to_know self user_roles attrs = Returns true)
  ∧ (∀ attrs attrs',
       attrs ≠ [] → attrs' ≠ [] →
       Dict.get "required_roles" attrs = Dict.get "required_roles" attrs' →
       _check_need_to_know self user_roles attrs
       = _check_need_to_know self user_roles attrs')
  ∧ (∀ attrs s,
       Dict.get "required_roles" attrs = Some (VStr s) → s ≠ EmptyString →
       ∃ ok,
         _check_need_to_know self user_roles attrs = Returns ok
         ∧ (ok = true ↔
              ∃ c, In c (list_ascii_of_string s)
                   ∧ String c EmptyString ∈ user_roles))
  ∧ (∀ attrs z,
       Dict.get "required_roles" attrs = Some (VInt z) → z ≠ 0%Z →
       _check_need_to_know self user_roles attrs = Raises TypeError)
  ∧ (∀ attrs,
       Dict.get "required_roles" attrs = Some (VBool true) →
       _check_need_to_know self user_roles attrs = Raises TypeError).
Proof.
  assert (∀ attrs v, Dict.get "required_roles" attrs = Some v → nonempty attrs = true)
    as Hne by (intros [|? ?] ?; done).
  unfold _check_need_to_know. repeat split.
  - intros attrs Hget. rewrite Hget. by destruct (nonempty attrs).
  - intros attrs v Hget Hv. rewrite Hget. simpl. rewrite Hv.
    by destruct (nonempty attrs).
  - intros attrs attrs' H1%nonempty_spec H2%nonempty_spec Hget.
    by rewrite H1, H2, Hget.
  - intros attrs s Hget Hs. rewrite (Hne _ _ Hget), Hget.
    cbn [negb from_option id truthy iterate].
    apply String.eqb_neq in Hs as ->. cbn [negb].
    destruct (existsb (role_in user_roles) (chars s)) eqn:Hex; cbn [negb];
      eexists; (split; [reflexivity|]).
    + split; [|done]. intros _. apply existsb_exists in Hex as (v & Hv & Hr).
      apply in_chars in Hv as (c & -> & Hc). exists c. split; [done|].
      simpl in Hr. by apply bool_decide_eq_true in Hr.
    + split; [done|]. intros (c & Hc & Hr). exfalso.
      apply not_true_iff_false in Hex. apply Hex, existsb_exists.
      exists (VStr (String c EmptyString)). split.
      * apply in_chars. eauto.
      * simpl. by apply bool_decide_eq_true.
  - intros attrs z Hget Hz. rewrite (Hne _ _ Hget), Hget.
    cbn [negb from_option id truthy iterate].
    by apply Z.eqb_neq in Hz as ->.
  - intros attrs Hget. by rewrite (Hne _ _ Hget), Hget.
Qed.

End Checks.

(** ** Access and privilege *)

Section Monotone.

Import AccessControlEngine.

Lemma check_need_to_know_monotone (self : AccessControlEngine.t)
    (user_roles more_roles : list string) (attrs : list (string * pyval)) :
  user_roles ⊆ more_roles →
  _check_need_to_know self user_roles attrs = Returns true →
  _check_need_to_know self more_roles attrs = Returns true.
Proof.
  intros Hsub. unfold _check_need_to_know.
  destruct (negb (nonempty attrs)); [done|].
  destruct (truthy _); [|done].
  destruct (iterate _) as [rs|err]; [|done].
  destruct (existsb (role_in user_roles) rs) eqn:Hex; [|done].
  intros _. apply existsb_exists in Hex as (r & Hr & Hin).
  assert (existsb (role_in more_roles) rs = true) as ->; [|done].
  apply existsb_exists. exists r. split; [done|].
  destruct r; try done. simpl in *. apply bool_decide_eq_true.
  apply bool_decide_eq_true in Hin. by apply Hsub.
Qed.

(** X23: more privilege never loses access.  When a subject is allowed,
    so is, for the same resource and the same state of account and
    session, every subject of greater or equal rank that holds the
    compartments and the roles of the first, whatever the MFA status and
    the device posture of either; and the second call returns a decision
    whenever the first did. *)
Theorem more_privilege_keeps_access (self : AccessControlEngine.t)
    (fresh fresh' : UUID) (now now' : datetime) (user_id user_id' : UUID)
    (lower higher : ClassificationLevel) (fewer more : list Compartment)
    (user_roles more_roles : list string) (mfa mfa' user_account_suspended : bool)
    (resource_classification : ClassificationLevel)
    (resource_compartments : list Compartment)
    (resource_need_to_know_attrs : option (list (string * pyval)))
    (posture posture' : string) (session_active : bool) (d : AccessDecision.t) :
  make_access_decision self fresh now user_id lower fewer user_roles mfa
    user_account_suspended resource_classification resource_compartments
    resource_need_to_know_attrs posture session_active = Returns d →
  AccessDecision.allowed d = true →
  (Level.numeric_value lower ≤ Level.numeric_value higher)%Z →
  fewer ⊆ more →
  user_roles ⊆ more_roles →
  ∃ d',
    make_access_decision self fresh' now' user_id' higher more more_roles mfa'
      user_account_suspended resource_classification resource_compartments
      resource_need_to_know_attrs posture' session_active = Returns d'
    ∧ AccessDecision.allowed d' = true.
Proof.
  unfold make_access_decision. intros Hd Hallowed Hrank Hcomp Hroles.
  destruct user_account_suspended; [by injection Hd as <-|].
  destruct session_active; [|by injection Hd as <-]. cbn [negb] in *.
  destruct (Z.ltb_spec (Level.numeric_value lower)
              (Level.numeric_value resource_classification));
    [by injection Hd as <-|].
  rewrite (proj2 (Z.ltb_ge _ _)) by lia.
  destruct (issubset resource_compartments fewer) eqn:Hsub;
    [|by injection Hd as <-].
  assert (issubset resource_compartments more = true) as ->.
  { apply issubset_spec. apply issubset_spec in Hsub. set_solver. }
  cbn [negb] in *.
  destruct resource_need_to_know_attrs as [attrs|]; [|eauto].
  destruct (nonempty attrs); [|eauto].
  destruct (_check_need_to_know self user_roles attrs) as [[]|err] eqn:Hcheck;
    [|by injection Hd as <-|done].
  rewrite (check_need_to_know_monotone _ _ _ _ Hroles Hcheck). eauto.
Qed.

End Monotone.

(** ** Redaction: who is redacted *)

Section Redaction.

Import RedactionEngine.

(** X8: a portion rule fires exactly when the subject ranks strictly
    below its minimum clearance, or its compartment requirement is
    non-empty and not contained in the subject's compartments; as the
    minimum clearance is always set, no portion rule is a no-op for a
    subject below it. *)
Theorem portion_should_redact_iff (rule : PortionRedactionRule.t)
    (user_clearance : ClassificationLevel) (user_compartments : list Compartment) :
  PortionRedactionRule.should_redact rule user_clearance user_compartments = true ↔
  (Level.numeric_value user_clearance
     < Level.numeric_value (PortionRedactionRule.minimum_clearance rule))%Z
  ∨ (PortionRedactionRule.required_compartments rule ≠ []
     ∧ ¬ PortionRedactionRule.required_compartments rule ⊆ user_compartments).
Proof.
  unfold PortionRedactionRule.should_redact.
  destruct (Z.ltb_spec (Level.numeric_value user_clearance)
              (Level.numeric_value (PortionRedactionRule.minimum_clearance rule)));
    [naive_solver|].
  destruct (nonempty (PortionRedactionRule.required_compartments rule)) eqn:Hne;
    [apply nonempty_spec in Hne
    |apply not_true_iff_false in Hne; rewrite nonempty_spec in Hne].
  - destruct (issubset _ user_compartments) eqn:Hsub;
      [apply issubset_spec in Hsub|apply issubset_false in Hsub]; simpl.
    + split; [done|]. intros [?|[_ ?]]; [lia|done].
    + split; [|done]. intros _. by right.
  - split; [done|]. intros [?|[? _]]; [lia|done].
Qed.

Lemma field_rule_fires_below (rule : FieldRedactionRule.t)
    (lower higher : ClassificationLevel) (fewer more : list Compartment) :
  (Level.numeric_value lower ≤ Level.numeric_value higher)%Z →
  fewer ⊆ more →
  FieldRedactionRule.should_redact rule higher more = true →
  FieldRedactionRule.should_redact rule lower fewer = true.
Proof.
  intros Hrank Hsub. unfold FieldRedactionRule.should_redact.
  assert (issubset (FieldRedactionRule.required_compartments rule) more = false →
          issubset (FieldRedactionRule.required_compartments rule) fewer = false)
    as Hmono.
  { rewrite !issubset_false. intros Hn Hf. apply Hn. by etrans. }
  destruct (nonempty (FieldRedactionRule.required_compartments rule));
    destruct (issubset _ more) eqn:Hm; try rewrite (Hmono eq_refl); simpl;
    destruct (FieldRedactionRule.required_clearance rule) as [required|];
    try done;
    destruct (Z.ltb_spec (Level.numeric_value higher) (Level.numeric_value required));
    destruct (Z.ltb_spec (Level.numeric_value lower) (Level.numeric_value required));
    try done; try lia;
    by destruct (issubset _ fewer).
Qed.

Lemma portion_rule_fires_below (rule : PortionRedactionRule.t)
    (lower higher : ClassificationLevel) (fewer more : list Compartment) :
  (Level.numeric_value lower ≤ Level.numeric_value higher)%Z →
  fewer ⊆ more →
  PortionRedactionRule.should_redact rule higher more = true →
  PortionRedactionRule.should_redact rule lower fewer = true.
Proof.
  intros Hrank Hsub. unfold PortionRedactionRule.should_redact.
  assert (issubset (PortionRedactionRule.required_compartments rule) more = false →
          issubset (PortionRedactionRule.required_compartments rule) fewer = false)
    as Hmono.
  { rewrite !issubset_false. intros Hn Hf. apply Hn. by etrans. }
  destruct (Z.ltb_spec (Level.numeric_value higher)
              (Level.numeric_value (PortionRedactionRule.minimum_clearance rule)));
    destruct (Z.ltb_spec (Level.numeric_value lower)
                (Level.numeric_value (PortionRedactionRule.minimum_clearance rule)));
    try done; try lia.
  destruct (nonempty (PortionRedactionRule.required_compartments rule)); [|done].
  destruct (issubset _ more) eqn:Hm; [done|]. by rewrite (Hmono eq_refl).
Qed.

Lemma map_filter_sublist {A B} (f : A → B) (p q : A → bool) (l : list A) :
  (∀ x, p x = true → q x = true) →
  map f (filter (λ x, p x = true) l) `sublist_of` map f (filter (λ x, q x = true) l).
Proof.
  intros Hpq. induction l as [|x l IH]; simpl; [constructor|].
  rewrite !filter_cons. destruct (p x) eqn:Hp.
  - rewrite (Hpq x Hp). rewrite !decide_True by done. simpl. by constructor.
  - rewrite decide_False by congruence.
    destruct (q x); [rewrite decide_True by done|rewrite decide_False by congruence];
      simpl; [by constructor|done].
Qed.

(** The obligations as two filters, one after the other. *)
Lemma compute_obligations_filters (self : RedactionEngine.t)
    (user_clearance : ClassificationLevel) (user_compartments : list Compartment) :
  compute_obligations self user_clearance user_compartments
  = (map field_obligation
       (filter (λ r, FieldRedactionRule.should_redact r user_clearance
                       user_compartments = true)
          (ClassificationPolicy.field_redaction_rules (policy self)))
     ++ map portion_obligation
          (filter (λ r, PortionRedactionRule.should_redact r user_clearance
                          user_compartments = true)
             (ClassificationPolicy.portion_redaction_rules (policy self))))%list.
Proof. unfold compute_obligations. by rewrite !foldl_append_if. Qed.

(** X9: redaction only decreases with privilege.  A rule, of a field or
    of a portion, that fires for a subject also fires for every subject
    of lower or equal rank holding fewer compartments; hence the
    obligations computed for the more privileged subject are a sublist,
    in the same order, of those computed for the less privileged one. *)
Theorem redaction_decreases_with_privilege (self : RedactionEngine.t)
    (lower higher : ClassificationLevel) (fewer more : list Compartment) :
  (Level.numeric_value lower ≤ Level.numeric_value higher)%Z →
  fewer ⊆ more →
  (∀ rule, FieldRedactionRule.should_redact rule higher more = true →
           FieldRedactionRule.should_redact rule lower fewer = true)
  ∧ (∀ rule, PortionRedactionRule.should_redact rule higher more = true →
             PortionRedactionRule.should_redact rule lower fewer = true)
  ∧ compute_obligations self higher more
    `sublist_of` compute_obligations self lower fewer.
Proof.
  intros Hrank Hsub. split; [|split].
  - intros rule. by apply field_rule_fires_below.
  - intros rule. by apply portion_rule_fires_below.
  - rewrite !compute_obligations_filters. apply sublist_app.
    + apply map_filter_sublist. intros rule. by apply field_rule_fires_below.
    + apply map_filter_sublist. intros rule. by apply portion_rule_fires_below.
Qed.

(** When no rule with this path fires, [redact_field] returns its
    argument. *)
Lemma redact_field_no_rule (self : RedactionEngine.t) (data : pyval)
    (field_path : string) (user_clearance : ClassificationLevel)
    (user_compartments : list Compartment) :
  (∀ rule, rule ∈ ClassificationPolicy.field_redaction_rules (policy self) →
           FieldRedactionRule.should_redact rule user_clearance user_compartments
           = false) →
  redact_field self data field_path user_clearance user_compartments = data.
Proof.
  unfold redact_field.
  induction (ClassificationPolicy.field_redaction_rules (policy self))
    as [|rule rules IH]; intros Hnone; simpl; [done|].
  rewrite (Hnone rule) by by left.
  destruct (negb (FieldRedactionRule.field_path rule =? field_path)%string);
    simpl; apply IH; intros r Hr; apply Hnone; by right.
Qed.

(** X10: a subject for whom no field rule of the policy fires gets the
    payload back as it was, whatever the payload and whatever the portion
    rules of the policy. *)
Theorem cleared_subject_sees_the_original (self : AccessControlEngine.t)
    (data : pyval) (user_clearance : ClassificationLevel)
    (user_compartments : list Compartment) :
  (∀ rule,
     rule ∈ ClassificationPolicy.field_redaction_rules
              (policy (AccessControlEngine.redaction_engine self)) →
     FieldRedactionRule.should_redact rule user_clearance user_compartments
     = false) →
  AccessControlEngine.apply_redaction self data user_clearance user_compartments
  = data.
Proof.
  intros Hnone. unfold AccessControlEngine.apply_redaction, apply_obligations.
  induction (compute_obligations _ user_clearance user_compartments)
    as [|o obligations IH] using rev_ind; [done|].
  rewrite foldl_snoc, IH.
  destruct (AccessDecisionObligation.obligation_type o); try done.
  destruct (AccessDecisionObligation.resource_field o) as [field|]; [|done].
  destruct (negb (field =? "")%string); [|done].
  by apply redact_field_no_rule.
Qed.

End Redaction.

(** ** Redaction: what is written *)

Section Writes.

Import RedactionEngine.

Lemma apply_obligations_portion (self : RedactionEngine.t) (data : pyval)
    (rules : list PortionRedactionRule.t)
    (user_clearance : ClassificationLevel) (user_compartments : list Compartment) :
  apply_obligations self data (map portion_obligation rules) user_clearance
    user_compartments = data.
Proof.
  unfold apply_obligations. revert data.
  induction rules as [|r rules IH]; intros data; simpl; [done|]. apply IH.
Qed.

(** X11: the redacted payload depends on the policy through its field
    rules only: two engines whose policies have the same field rules
    redact every payload alike, whatever their portion rules, their
    flags and their other fields. *)
Theorem payload_depends_on_field_rules_only (self self' : AccessControlEngine.t)
    (data : pyval) (user_clearance : ClassificationLevel)
    (user_compartments : list Compartment) :
  ClassificationPolicy.field_redaction_rules
    (policy (AccessControlEngine.redaction_engine self))
  = ClassificationPolicy.field_redaction_rules
      (policy (AccessControlEngine.redaction_engine self')) →
  AccessControlEngine.apply_redaction self data user_clearance user_compartments
  = AccessControlEngine.apply_redaction self' data user_clearance user_compartments.
Proof.
  intros Hrules. unfold AccessControlEngine.apply_redaction.
  rewrite !compute_obligations_filters.
  assert (∀ (e : RedactionEngine.t) x obs1 obs2,
            apply_obligations e x (obs1 ++ obs2) user_clearance user_compartments
            = apply_obligations e
                (apply_obligations e x obs1 user_clearance user_compartments)
                obs2 user_clearance user_compartments) as Happ
    by (intros; unfold apply_obligations; by rewrite foldl_app).
  rewrite !Happ, !apply_obligations_portion.
  unfold apply_obligations, redact_field. by rewrite Hrules.
Qed.

Lemma replacement_is_mask (rule : FieldRedactionRule.t) :
  is_mask (VStr (FieldRedactionRule.apply_redaction rule VNone)).
Proof.
  unfold is_mask, FieldRedactionRule.apply_redaction.
  destruct (FieldRedactionRule.strategy rule); auto.
Qed.

Lemma masked_dict_inv (x : pyval) (d' : list (string * pyval)) :
  masked x (VDict d') →
  ∃ d, x = VDict d
       ∧ Forall2 (λ e e' : string * pyval,
                    e.1 = e'.1 ∧ (masked e.2 e'.2 ∨ is_mask e'.2)) d d'.
Proof.
  intros H. inversion H as [? Heq| |]; subst; eauto.
  exists d'. split; [done|]. clear H.
  induction d' as [|e d' IH]; [constructor|].
  constructor; [|done]. split; [done|]. left. constructor.
Qed.

Lemma masked_list_inv (x : pyval) (l' : list pyval) :
  masked x (VList l') → ∃ l, x = VList l ∧ Forall2 masked l l'.
Proof.
  intros H. inversion H; subst; eauto.
  exists l'. split; [done|]. clear H.
  induction l' as [|a l' IH]; [constructor|]. constructor; [constructor|done].
Qed.

Lemma dict_set_entries (d d' : list (string * pyval)) (key : string)
    (b b' : pyval) :
  Forall2 (λ e e' : string * pyval,
             e.1 = e'.1 ∧ (masked e.2 e'.2 ∨ is_mask e'.2)) d d' →
  Dict.get key d' = Some b →
  (∀ a, masked a b ∨ is_mask b → masked a b' ∨ is_mask b') →
  Forall2 (λ e e' : string * pyval,
             e.1 = e'.1 ∧ (masked e.2 e'.2 ∨ is_mask e'.2)) d (Dict.set key b' d').
Proof.
  intros HF Hget Hstep.
  induction HF as [|[k a] [k' w] d d' [Hk Hw] HF IH]; simpl in *; [done|].
  subst k'. destruct (String.eqb k key).
  - injection Hget as ->. constructor; [|done]. split; [done|]. by apply Hstep.
  - constructor; [done|]. by apply IH.
Qed.

Lemma set_path_masked (parts : list string) (v : pyval) :
  is_mask v →
  ∀ x y, masked x y → masked x (_set_path_redacted parts v y).2.
Proof.
  intros Hv. induction parts as [|head tail IH]; intros x y Hxy; [done|].
  simpl. destruct (PyStr.endswith head "[*]").
  - destruct y as [| | | | |d']; try done.
    destruct (Dict.get (PyStr.drop_last 3 head) d') as [[| | | |items|]|] eqn:Hget;
      try done.
    rewrite visit_items_map. cbn [fst snd].
    apply masked_dict_inv in Hxy as (d & -> & HF). constructor.
    eapply dict_set_entries; [done..|].
    intros a [Ha|Ha]; [|destruct Ha as [|[|]]; done].
    left. apply masked_list_inv in Ha as (l & -> & Hl). constructor.
    apply Forall2_fmap_r. eapply Forall2_impl; [done|]. intros; by apply IH.
  - destruct y as [| | | | |d']; try done.
    destruct (Dict.get head d') as [child|] eqn:Hget; [|done].
    apply masked_dict_inv in Hxy as (d & -> & HF).
    destruct tail as [|seg tail']; cbn [fst snd]; constructor;
      (eapply dict_set_entries; [done..|]).
    + intros a _. by right.
    + intros a [Ha|Ha]; [left; by apply IH|].
      right. destruct Ha as [->|[->| ->]]; simpl;
        by destruct (PyStr.endswith seg "[*]"); unfold is_mask; auto.
Qed.

Lemma redact_field_masked (self : RedactionEngine.t) (field_path : string)
    (user_clearance : ClassificationLevel) (user_compartments : list Compartment)
    (x y : pyval) :
  masked x y →
  masked x (redact_field self y field_path user_clearance user_compartments).
Proof.
  unfold redact_field. revert y.
  induction (ClassificationPolicy.field_redaction_rules (policy self))
    as [|rule rules IH]; intros y Hxy; simpl; [done|].
  apply IH.
  destruct (negb (FieldRedactionRule.field_path rule =? field_path)%string); [done|].
  destruct (negb (FieldRedactionRule.should_redact rule user_clearance
                    user_compartments)); [done|].
  apply set_path_masked; [apply replacement_is_mask|done].
Qed.

Lemma masked_dict_keys (d : list (string * pyval)) (y : pyval) :
  masked (VDict d) y → ∃ d', y = VDict d' ∧ map fst d' = map fst d.
Proof.
  intros H. inversion H as [| |? d' HF]; subst; [eauto|].
  exists d'. split; [done|]. clear H.
  induction HF as [|e e' ? ? [He _] _ IH]; simpl; [done|]. by rewrite He, IH.
Qed.

Lemma masked_list_length (l : list pyval) (y : pyval) :
  masked (VList l) y → ∃ l', y = VList l' ∧ length l' = length l.
Proof.
  intros H. inversion H as [|? l' HF|]; subst; [eauto|].
  exists l'. split; [done|]. symmetry. by eapply Forall2_length.
Qed.

(** X12: redaction writes masks and does nothing else.  The redacted
    payload is the payload in which some dictionary entries have received
    one of the strings "[REDACTED]", "****" and "#####" as their value: no
    key is added, removed or moved (also under the strategy
    [REMOVE_FIELD]), no list changes its length, and a payload that is a
    dictionary comes back as a dictionary with the same keys in the same
    order. *)
Theorem redaction_only_writes_masks (self : AccessControlEngine.t)
    (data : pyval) (user_clearance : ClassificationLevel)
    (user_compartments : list Compartment) :
  let redacted :=
    AccessControlEngine.apply_redaction self data user_clearance
      user_compartments in
  masked data redacted
  ∧ (∀ d, data = VDict d → ∃ d', redacted = VDict d' ∧ map fst d' = map fst d)
  ∧ (∀ l, data = VList l → ∃ l', redacted = VList l' ∧ length l' = length l).
Proof.
  cbv zeta.
  assert (masked data
            (AccessControlEngine.apply_redaction self data user_clearance
               user_compartments)) as Hm.
  { unfold AccessControlEngine.apply_redaction, apply_obligations.
    induction (compute_obligations _ user_clearance user_compartments)
      as [|o obligations IH] using rev_ind; [constructor|].
    rewrite foldl_snoc.
    destruct (AccessDecisionObligation.obligation_type o); try done.
    destruct (AccessDecisionObligation.resource_field o) as [field|]; [|done].
    destruct (negb (field =? "")%string); [|done].
    by apply redact_field_masked. }
  split; [done|]. split.
  - intros d ->. by apply masked_dict_keys.
  - intros l ->. by apply masked_list_length.
Qed.

End Writes.

(** ** Redaction: writes along one path *)

Section SamePath.

Import RedactionEngine.

Lemma dict_set_set (key : string) (v w : pyval) (d : list (string * pyval)) :
  Dict.set key v (Dict.set key w d) = Dict.set key v d.
Proof.
  induction d as [|[k a] d IH]; simpl.
  - by rewrite String.eqb_refl.
  - destruct (String.eqb k key) eqn:E; simpl; rewrite E; [done|]. by rewrite IH.
Qed.

Lemma dict_set_keys (key : string) (v old : pyval) (d : list (string * pyval)) :
  Dict.get key d = Some old → map fst (Dict.set key v d) = map fst d.
Proof.
  induction d as [|[k a] d IH]; simpl; [done|].
  destruct (String.eqb k key); [done|]. intros H. simpl. by rewrite IH.
Qed.

Lemma set_path_twice (parts : list string) (v v' current : pyval) :
  _set_path_redacted parts v (_set_path_redacted parts v' current).2
  = _set_path_redacted parts v current.
Proof.
  revert current. induction parts as [|head tail IH]; intros current; [done|].
  cbn [_set_path_redacted]. destruct (PyStr.endswith head "[*]") eqn:Hw.
  - destruct current as [| | | | |d]; try done.
    destruct (Dict.get (PyStr.drop_last 3 head) d) as [[| | | |items|]|] eqn:Hget;
      cbn [snd]; rewrite ?Hget; try done.
    rewrite dict_get_set, !visit_items_map. cbn [fst snd].
    rewrite dict_set_set, map_map. f_equal.
    + clear Hget. induction items as [|item items IHi]; simpl; [done|].
      by rewrite IH, IHi.
    + do 3 f_equal. apply map_ext. intros item. by rewrite IH.
  - destruct current as [| | | | |d]; try done.
    destruct (Dict.get head d) as [child|] eqn:Hget; cbn [snd]; rewrite ?Hget;
      [|done].
    destruct tail as [|seg tail']; cbn [snd]; rewrite dict_get_set.
    + by rewrite dict_set_set.
    + by rewrite IH, dict_set_set.
Qed.

Lemma write_twice (parts : list string) (v current : pyval) :
  write parts v (write parts v current) = write parts v current.
Proof. unfold write. by rewrite set_path_twice. Qed.

(** X13: two writes along the same path leave the trace of the second
    only: the call with [v] after a call with [v'] returns what the call
    with [v] alone returns, flag and payload.  In particular a call
    repeated with the same value changes nothing more and reports the
    same flag. *)
Theorem second_write_wins (parts : list string) (v v' current : pyval) :
  _set_path_redacted parts v (_set_path_redacted parts v' current).2
  = _set_path_redacted parts v current.
Proof. apply set_path_twice. Qed.

Lemma redact_field_fold (self : RedactionEngine.t) (data : pyval)
    (field_path : string) (user_clearance : ClassificationLevel)
    (user_compartments : list Compartment) :
  redact_field self data field_path user_clearance user_compartments
  = foldl
      (λ data rule,
         (_set_path_redacted (PyStr.split "." field_path)
            (VStr (FieldRedactionRule.apply_redaction rule VNone)) data).2)
      data
      (filter (λ rule, FieldRedactionRule.field_path rule = field_path
                       ∧ FieldRedactionRule.should_redact rule user_clearance
                           user_compartments = true)
         (ClassificationPolicy.field_redaction_rules (policy self))).
Proof.
  unfold redact_field. revert data.
  induction (ClassificationPolicy.field_redaction_rules (policy self))
    as [|rule rules IH]; intros data; simpl; [done|].
  rewrite filter_cons.
  destruct (String.eqb_spec (FieldRedactionRule.field_path rule) field_path)
    as [Heq|Hne]; simpl.
  - destruct (FieldRedactionRule.should_redact rule user_clearance
                user_compartments) eqn:Hf; simpl.
    + rewrite decide_True by done. simpl. apply IH.
    + rewrite decide_False by (intros [_ ?]; congruence). apply IH.
  - rewrite decide_False by (intros [? _]; congruence). apply IH.
Qed.

Lemma redact_field_single_write (self : RedactionEngine.t) (data : pyval)
    (field_path : string) (user_clearance : ClassificationLevel)
    (user_compartments : list Compartment) :
  redact_field self data field_path user_clearance user_compartments
  = match last (filter (λ rule, FieldRedactionRule.field_path rule = field_path
                                ∧ FieldRedactionRule.should_redact rule
                                    user_clearance user_compartments = true)
                  (ClassificationPolicy.field_redaction_rules (policy self))) with
    | Some rule =>
        write (PyStr.split "." field_path)
          (VStr (FieldRedactionRule.apply_redaction rule VNone)) data
    | None => data
    end.
Proof.
  rewrite redact_field_fold. revert data.
  induction (filter _ _) as [|rule rules IH] using rev_ind; intros data; [done|].
  rewrite foldl_snoc, last_snoc, IH. unfold write.
  destruct (last rules); [|done]. by rewrite set_path_twice.
Qed.

(** X14: among the rules of a policy that bear the same path and fire,
    the last one in the order of declaration decides what is written:
    [redact_field] returns what a single write of that rule's replacement
    returns, and the payload itself when no such rule fires.  Applied to
    its own result, [redact_field] changes nothing. *)
Theorem last_rule_of_a_path_decides (self : RedactionEngine.t) (data : pyval)
    (field_path : string) (user_clearance : ClassificationLevel)
    (user_compartments : list Compartment) :
  let firing :=
    filter (λ rule, FieldRedactionRule.field_path rule = field_path
                    ∧ FieldRedactionRule.should_redact rule user_clearance
                        user_compartments = true)
      (ClassificationPolicy.field_redaction_rules (policy self)) in
  redact_field self data field_path user_clearance user_compartments
  = match last firing with
    | Some rule =>
        (_set_path_redacted (PyStr.split "." field_path)
           (VStr (FieldRedactionRule.apply_redaction rule VNone)) data).2
    | None => data
    end
  ∧ redact_field self
      (redact_field self data field_path user_clearance user_compartments)
      field_path user_clearance user_compartments
    = redact_field self data field_path user_clearance user_compartments.
Proof.
  cbv zeta. rewrite !redact_field_single_write.
  split; [done|]. destruct (last _); [|done]. apply write_twice.
Qed.

(** X15: a write leaves alone what is off its path.  On a dictionary the
    result is a dictionary with the same keys in the same order, and
    every entry other than the one named by the first segment is as it
    was; on anything that is not a dictionary, every path fails and the
    value is returned as it was. *)
Theorem off_path_entries_untouched (head : string) (tail : list string)
    (v : pyval) :
  (∀ d, ∃ d',
     (_set_path_redacted (head :: tail) v (VDict d)).2 = VDict d'
     ∧ map fst d' = map fst d
     ∧ ∀ k, k ≠ segment_key head → Dict.get k d' = Dict.get k d)
  ∧ (∀ current parts,
       (∀ d, current ≠ VDict d) →
       _set_path_redacted parts v current = (false, current)).
Proof.
  split.
  - intros d. unfold segment_key. cbn [_set_path_redacted].
    destruct (PyStr.endswith head "[*]").
    + destruct (Dict.get (PyStr.drop_last 3 head) d) as [[| | | |items|]|] eqn:Hget;
        try by (exists d).
      eexists. split; [reflexivity|]. split; [by eapply dict_set_keys|].
      intros k Hk. by apply dict_get_set_ne.
    + destruct (Dict.get head d) as [child|] eqn:Hget; [|by exists d].
      destruct tail as [|seg tail']; (eexists; split; [reflexivity|]);
        (split; [by eapply dict_set_keys|]);
        intros k Hk; by apply dict_get_set_ne.
  - intros current parts Hnd. destruct parts as [|seg parts]; [done|].
    simpl. destruct (PyStr.endswith seg "[*]");
      destruct current; try done; by destruct (Hnd entries).
Qed.

End SamePath.

(** ** The banner *)

Section Banner.

Import ClassificationAggregationResult.

Variable hmac_sha256_hexdigest : string → string → string.

Lemma elem_of_markings (es : list Entity.t) (m : string) :
  m ∈ (⋃ (markings_of <$> es) : gset string) ↔
  ∃ e ms, e ∈ es ∧ Entity.portion_markings e = Some ms ∧ m ∈ ms.
Proof.
  rewrite elem_of_union_list. split.
  - intros (X & HX & Hm). apply list_elem_of_fmap in HX as (e & -> & He).
    unfold markings_of in Hm. destruct (Entity.portion_markings e) as [ms|] eqn:E;
      [|set_solver]. exists e, ms. by rewrite elem_of_list_to_set in Hm.
  - intros (e & ms & He & E & Hm). exists (markings_of e). split.
    + apply list_elem_of_fmap. eauto.
    + unfold markings_of. rewrite E. by apply elem_of_list_to_set.
Qed.

Lemma elem_of_compartments (es : list Entity.t) (c : Compartment) :
  c ∈ (⋃ (compartments_of <$> es) : gset Compartment) ↔
  ∃ e xs, e ∈ es ∧ Entity.compartments e = Some xs ∧ c ∈ xs.
Proof.
  rewrite elem_of_union_list. split.
  - intros (X & HX & Hc). apply list_elem_of_fmap in HX as (e & -> & He).
    unfold compartments_of in Hc. destruct (Entity.compartments e) as [xs|] eqn:E;
      [|set_solver]. exists e, xs. by rewrite elem_of_list_to_set in Hc.
  - intros (e & xs & He & E & Hc). exists (compartments_of e). split.
    + apply list_elem_of_fmap. eauto.
    + unfold compartments_of. rewrite E. by apply elem_of_list_to_set.
Qed.

(** X16: the banner summarises the entities.  The highest classification
    dominates the classification of every entity and is the
    classification of one of them, or UNCLASSIFIED when none has one; it
    is UNCLASSIFIED exactly when no entity is classified above it.  The
    portion markings are those of the entities, each once, in strictly
    increasing order; so are the compartments, by code.  The
    classifications are listed in the order of the entities, and the
    count is the number of entities, classified or not. *)
Theorem banner_summarises_entities (now : datetime) (es : list Entity.t)
    (signing_key : option string) :
  let r := aggregate hmac_sha256_hexdigest now es signing_key in
  (∀ e c, e ∈ es → Entity.classification e = Some c →
          (Level.numeric_value c
             ≤ Level.numeric_value (highest_classification r))%Z)
  ∧ ((∃ e, e ∈ es ∧ Entity.classification e = Some (highest_classification r))
     ∨ (highest_classification r = UNCLASSIFIED
        ∧ ∀ e, e ∈ es → Entity.classification e = None))
  ∧ (highest_classification r = UNCLASSIFIED ↔
       ∀ e c, e ∈ es → Entity.classification e = Some c → c = UNCLASSIFIED)
  ∧ StronglySorted (λ a b, String.ltb a b = true) (all_portion_markings r)
  ∧ (∀ m, m ∈ all_portion_markings r ↔
          ∃ e ms, e ∈ es ∧ Entity.portion_markings e = Some ms ∧ m ∈ ms)
  ∧ StronglySorted (λ a b, String.ltb a b = true)
      (map Comp.value (all_compartments r))
  ∧ (∀ c, c ∈ all_compartments r ↔
          ∃ e xs, e ∈ es ∧ Entity.compartments e = Some xs ∧ c ∈ xs)
  ∧ all_classifications r = omap Entity.classification es
  ∧ computed_from_entity_count r = Z.of_nat (length es).
Proof.
  cbv zeta.
  destruct (aggregate_fields hmac_sha256_hexdigest now es signing_key)
    as (-> & -> & -> & -> & -> & _).
  assert ((∀ e c, e ∈ es → Entity.classification e = Some c →
             (Level.numeric_value c
                ≤ Level.numeric_value
                    (py_max Level.numeric_value UNCLASSIFIED
                       (omap Entity.classification es)))%Z)
          ∧ ((∃ e, e ∈ es
                   ∧ Entity.classification e
                     = Some (py_max Level.numeric_value UNCLASSIFIED
                               (omap Entity.classification es)))
             ∨ (py_max Level.numeric_value UNCLASSIFIED
                  (omap Entity.classification es) = UNCLASSIFIED
                ∧ ∀ e, e ∈ es → Entity.classification e = None)))
    as [Hdom Hatt].
  { destruct (omap Entity.classification es) as [|c0 cs] eqn:Hcs.
    - assert (∀ e, e ∈ es → Entity.classification e = None) as Hnone.
      { intros e He. destruct (Entity.classification e) as [c|] eqn:E; [|done].
        assert (c ∈ omap Entity.classification es) as Hc
          by (apply list_elem_of_omap; eauto).
        rewrite Hcs in Hc. by apply elem_of_nil in Hc. }
      split; [|right; by split].
      intros e c He E. rewrite (Hnone e He) in E. done.
    - destruct (py_max_spec Level.numeric_value UNCLASSIFIED (c0 :: cs))
        as [Hin Hmax]; [done|].
      rewrite <- Hcs in Hin, Hmax. split.
      + intros e c He E. rewrite <- Hcs. apply Hmax, list_elem_of_omap. eauto.
      + left. rewrite <- Hcs. apply list_elem_of_omap in Hin as (e & He & E). eauto. }
  split; [exact Hdom|]. split; [exact Hatt|]. split; [|repeat split].
  - split.
    + intros HU e c He E. specialize (Hdom e c He E). rewrite HU in Hdom.
      apply (inj Level.numeric_value). pose proof (numeric_value_range c).
      change (Level.numeric_value UNCLASSIFIED) with 0%Z in *. lia.
    + intros Hall. destruct Hatt as [(e & He & E)|[HU _]]; [|done].
      by eapply Hall.
  - rewrite <- (map_id (sorted id _)). apply (sorted_strict id), NoDup_elements.
  - intros Hm. apply elem_of_sorted, elem_of_elements in Hm.
    by apply elem_of_markings.
  - intros Hm. apply elem_of_sorted, elem_of_elements. by apply elem_of_markings.
  - apply sorted_strict; [apply _|apply NoDup_elements].
  - intros Hc. apply elem_of_sorted, elem_of_elements in Hc.
    by apply elem_of_compartments.
  - intros Hc. apply elem_of_sorted, elem_of_elements. by apply elem_of_compartments.
Qed.

Lemma py_max_app_rank (xs ys : list ClassificationLevel) :
  Level.numeric_value (py_max Level.numeric_value UNCLASSIFIED (xs ++ ys))
  = Z.max (Level.numeric_value (py_max Level.numeric_value UNCLASSIFIED xs))
      (Level.numeric_value (py_max Level.numeric_value UNCLASSIFIED ys)).
Proof.
  destruct xs as [|x xs].
  - simpl. pose proof (numeric_value_range
                         (py_max Level.numeric_value UNCLASSIFIED ys)).
    change (Level.numeric_value UNCLASSIFIED) with 0%Z. lia.
  - destruct ys as [|y ys].
    + rewrite app_nil_r.
      pose proof (numeric_value_range
                    (py_max Level.numeric_value UNCLASSIFIED (x :: xs))).
      change (Level.numeric_value (py_max _ _ [])) with 0%Z. lia.
    + destruct (py_max_spec Level.numeric_value UNCLASSIFIED ((x :: xs) ++ y :: ys))
        as [Hin Hmax]; [done|].
      destruct (py_max_spec Level.numeric_value UNCLASSIFIED (x :: xs))
        as [Hin1 Hmax1]; [done|].
      destruct (py_max_spec Level.numeric_value UNCLASSIFIED (y :: ys))
        as [Hin2 Hmax2]; [done|].
      pose proof (Hmax _ (proj2 (elem_of_app _ _ _) (or_introl Hin1))).
      pose proof (Hmax _ (proj2 (elem_of_app _ _ _) (or_intror Hin2))).
      apply elem_of_app in Hin as [Hin|Hin];
        [pose proof (Hmax1 _ Hin)|pose proof (Hmax2 _ Hin)]; lia.
Qed.

(** X17: banners compose.  The banner of two lists of entities put end to
    end has the higher of the two highest classifications, the markings
    and the compartments of both, the classifications of the first
    followed by those of the second, and the sum of the counts. *)
Theorem banner_of_concatenation (now now1 now2 : datetime)
    (es1 es2 : list Entity.t) (key key1 key2 : option string) :
  let r := aggregate hmac_sha256_hexdigest now (es1 ++ es2) key in
  let r1 := aggregate hmac_sha256_hexdigest now1 es1 key1 in
  let r2 := aggregate hmac_sha256_hexdigest now2 es2 key2 in
  Level.numeric_value (highest_classification r)
  = Z.max (Level.numeric_value (highest_classification r1))
      (Level.numeric_value (highest_classification r2))
  ∧ (∀ m, m ∈ all_portion_markings r ↔
          m ∈ all_portion_markings r1 ∨ m ∈ all_portion_markings r2)
  ∧ (∀ c, c ∈ all_compartments r ↔
          c ∈ all_compartments r1 ∨ c ∈ all_compartments r2)
  ∧ all_classifications r = (all_classifications r1 ++ all_classifications r2)%list
  ∧ computed_from_entity_count r
    = (computed_from_entity_count r1 + computed_from_entity_count r2)%Z.
Proof.
  cbv zeta.
  destruct (aggregate_fields hmac_sha256_hexdigest now (es1 ++ es2) key)
    as (-> & -> & -> & -> & -> & _).
  destruct (aggregate_fields hmac_sha256_hexdigest now1 es1 key1)
    as (-> & -> & -> & -> & -> & _).
  destruct (aggregate_fields hmac_sha256_hexdigest now2 es2 key2)
    as (-> & -> & -> & -> & -> & _).
  rewrite omap_app. split; [apply py_max_app_rank|]. repeat split.
  - rewrite !elem_of_sorted, !elem_of_elements, fmap_app, union_list_app.
    by intros ?%elem_of_union.
  - rewrite !elem_of_sorted, !elem_of_elements, fmap_app, union_list_app.
    by intros ?%elem_of_union.
  - rewrite !elem_of_sorted, !elem_of_elements, fmap_app, union_list_app.
    by intros ?%elem_of_union.
  - rewrite !elem_of_sorted, !elem_of_elements, fmap_app, union_list_app.
    by intros ?%elem_of_union.
  - rewrite length_app. lia.
Qed.

(** X18: a signature can be checked from the result alone.  With a
    non-empty key, the signature stored in the result is what
    [compute_signature] returns on that very result; and
    [compute_signature] reads the highest classification, the count, and
    the markings and compartments as sets only: results that agree on
    these have the same signature, whatever the order of their lists,
    their time of computation and their list of classifications.  Without
    a key, or with the empty key, no signature is stored. *)
Theorem signature_can_be_recomputed (now : datetime) (es : list Entity.t)
    (key : string) :
  key ≠ EmptyString →
  let r := aggregate hmac_sha256_hexdigest now es (Some key) in
  signature r = Some (compute_signature hmac_sha256_hexdigest r key)
  ∧ (∀ r1 r2,
       highest_classification r1 = highest_classification r2 →
       all_portion_markings r1 ≡ₚ all_portion_markings r2 →
       all_compartments r1 ≡ₚ all_compartments r2 →
       computed_from_entity_count r1 = computed_from_entity_count r2 →
       compute_signature hmac_sha256_hexdigest r1 key
       = compute_signature hmac_sha256_hexdigest r2 key)
  ∧ signature (aggregate hmac_sha256_hexdigest now es None) = None
  ∧ signature (aggregate hmac_sha256_hexdigest now es (Some EmptyString)) = None.
Proof.
  intros Hkey. cbv zeta. repeat split.
  - unfold aggregate. by apply String.eqb_neq in Hkey as ->.
  - intros r1 r2 Hh Hm Hc Hn. unfold compute_signature, signing_payload.
    rewrite Hh, Hn.
    rewrite (sorted_perm_eq id _ _ Hm).
    by rewrite (sorted_perm_eq id _ _ (Permutation_map Comp.value Hc)).
Qed.

End Banner.

(** ** Parsing the compartments of a request *)

Section Parse.

Import DemoApi.

Lemma rev_app_rev_app (s a b : string) :
  String.rev_app (String.rev_app s a) b = String.rev_app a (s ++ b).
Proof.
  revert a. induction s as [|c s IH]; intros a; simpl; [done|]. by rewrite IH.
Qed.

Lemma string_app_nil_r (s : string) : s ++ EmptyString = s.
Proof.
  induction s as [|c s IH]; [done|].
  change (String c (s ++ EmptyString) = String c s). by rewrite IH.
Qed.

Lemma rev_rev (s : string) : String.rev (String.rev_app s EmptyString) = s.
Proof.
  unfold String.rev. by rewrite rev_app_rev_app, string_app_nil_r.
Qed.

(** A piece without the separator is read up to the next separator. *)
Lemma split_aux_piece (sep : ascii) (acc s t : string) :
  ¬ In sep (list_ascii_of_string s) →
  PyStr.split_aux sep acc (s ++ String sep t)
  = String.rev (String.rev_app s acc) :: PyStr.split_aux sep EmptyString t.
Proof.
  revert acc. induction s as [|c s IH]; intros acc Hs; simpl.
  - by rewrite Ascii.eqb_refl.
  - destruct (Ascii.eqb_spec c sep) as [->|Hc]; [destruct Hs; by left|].
    apply IH. intros ?. apply Hs. by right.
Qed.

Lemma split_aux_last (sep : ascii) (acc s : string) :
  ¬ In sep (list_ascii_of_string s) →
  PyStr.split_aux sep acc s = [String.rev (String.rev_app s acc)].
Proof.
  revert acc. induction s as [|c s IH]; intros acc Hs; simpl; [done|].
  destruct (Ascii.eqb_spec c sep) as [->|Hc]; [destruct Hs; by left|].
  apply IH. intros ?. apply Hs. by right.
Qed.

(** Splitting at the commas undoes joining with commas. *)
Lemma split_join (pieces : list string) :
  pieces ≠ [] →
  Forall (λ p, ¬ In ","%char (list_ascii_of_string p)) pieces →
  PyStr.split "," (PyStr.join "," pieces) = pieces.
Proof.
  intros Hne HF. unfold PyStr.split, PyStr.join.
  induction HF as [|p pieces Hp HF IH]; [done|].
  destruct pieces as [|q pieces].
  - simpl. by rewrite split_aux_last, rev_rev.
  - change (String.concat "," (p :: q :: pieces))
      with (p ++ String "," (String.concat "," (q :: pieces))).
    rewrite split_aux_piece, rev_rev by done. f_equal. by apply IH.
Qed.

Lemma join_empty (pieces : list string) :
  PyStr.join "," pieces = EmptyString → pieces = [] ∨ pieces = [EmptyString].
Proof.
  destruct pieces as [|p [|q pieces]];
    [by left|intros H; right; f_equal; exact H|].
  unfold PyStr.join.
  change (String.concat "," (p :: q :: pieces))
    with (p ++ String "," (String.concat "," (q :: pieces))).
  by destruct p.
Qed.

Lemma compartment_of_code (c : Compartment) :
  compartment_of_value (Comp.value c) = Some c ∧ Comp.value c ≠ EmptyString.
Proof. by destruct c. Qed.

Lemma omap_id_some {A} (l : list A) : omap id (Some <$> l) = l.
Proof. induction l as [|x l IH]; [done|]. rewrite fmap_cons. simpl. by f_equal. Qed.

(** The items that are kept, once the input is split. *)
Lemma parse_pieces (ocs : list (option Compartment)) (pieces : list string) :
  Forall2 (λ oc p, strip p = from_option Comp.value EmptyString oc) ocs pieces →
  mapM compartment_of_value
    (map strip
       (List.filter (λ x, negb (String.eqb (strip x) EmptyString)) pieces))
  = Some (omap id ocs).
Proof.
  induction 1 as [|oc p ocs pieces Hp HF IH]; simpl; [done|].
  destruct oc as [c|]; simpl in Hp; rewrite Hp; simpl.
  - destruct (compartment_of_code c) as [Hc Hne].
    apply String.eqb_neq in Hne as ->. simpl. by rewrite Hp, Hc, IH.
  - exact IH.
Qed.

(** A code, with or without a blank before it, holds no comma and is
    what [strip] leaves of it. *)
Ltac code_piece :=
  split;
  [ let Hin := fresh "Hin" in
    intros Hin; cbv in Hin;
    repeat (destruct Hin as [Hin|Hin]; [discriminate Hin|]); exact Hin
  | vm_compute; reflexivity ].

(** X19: [_parse_compartments] reads a comma-separated list of codes.  An
    absent or empty header gives no compartment.  The blanks around an
    item and the items that are blank are dropped, and the compartments
    come in the order of their codes in the input; in particular the
    list of the codes of any compartments, joined by a comma or by a
    comma and a space, is read back as these compartments.  An item that
    is not blank and is not the code of a compartment makes the call
    raise. *)
Theorem parse_compartments_reads_codes :
  _parse_compartments None = Some []
  ∧ _parse_compartments (Some EmptyString) = Some []
  ∧ (∀ ocs pieces,
       Forall2 (λ oc p, ¬ In ","%char (list_ascii_of_string p)
                        ∧ strip p = from_option Comp.value EmptyString oc)
         ocs pieces →
       _parse_compartments (Some (PyStr.join "," pieces)) = Some (omap id ocs))
  ∧ (∀ cs, _parse_compartments (Some (PyStr.join "," (map Comp.value cs)))
           = Some cs)
  ∧ (∀ cs, _parse_compartments (Some (PyStr.join ", " (map Comp.value cs)))
           = Some cs)
  ∧ (∀ pieces,
       Forall (λ p, ¬ In ","%char (list_ascii_of_string p)) pieces →
       Exists (λ p, strip p ≠ EmptyString
                    ∧ compartment_of_value (strip p) = None) pieces →
       _parse_compartments (Some (PyStr.join "," pieces)) = None).
Proof.
  assert (∀ ocs pieces,
       Forall2 (λ oc p, ¬ In ","%char (list_ascii_of_string p)
                        ∧ strip p = from_option Comp.value EmptyString oc)
         ocs pieces →
       _parse_compartments (Some (PyStr.join "," pieces)) = Some (omap id ocs))
    as Hgen.
  { intros ocs pieces HF. unfold _parse_compartments.
    destruct (String.eqb_spec (PyStr.join "," pieces) EmptyString) as [He|Hne].
    - apply join_empty in He as [-> | ->].
      + by apply Forall2_nil_inv_r in HF as ->.
      + apply Forall2_cons_inv_r in HF as (oc & ocs' & [_ Hoc] & HF & ->).
        apply Forall2_nil_inv_r in HF as ->.
        destruct oc as [c|]; [|done].
        destruct (compartment_of_code c) as [_ Hc]. by destruct Hc.
    - rewrite split_join.
      + apply parse_pieces. eapply Forall2_impl; [done|]. by intros ?? [_ ?].
      + by intros ->.
      + eapply Forall2_Forall_r; [done|]. apply Forall_forall. by intros ?? ? [? _]. }
  split; [done|]. split; [done|]. split; [exact Hgen|]. split; [|split].
  - intros cs. rewrite (Hgen (Some <$> cs)).
    + f_equal. apply omap_id_some.
    + apply Forall2_fmap_l, Forall2_fmap_r, Forall_Forall2_diag, Forall_forall.
      intros c _. destruct c; code_piece.
  - intros cs. destruct cs as [|c cs]; [done|].
    assert (PyStr.join ", " (map Comp.value (c :: cs))
            = PyStr.join ","
                (Comp.value c :: map (λ x, String " " (Comp.value x)) cs)) as ->.
    { unfold PyStr.join. revert c. induction cs as [|c' cs IH]; intros c; [done|].
      change (String.concat ", " (map Comp.value (c :: c' :: cs)))
        with (Comp.value c
              ++ ", " ++ String.concat ", " (map Comp.value (c' :: cs))).
      rewrite IH.
      change (String.concat "," (Comp.value c
                :: map (λ x, String " " (Comp.value x)) (c' :: cs)))
        with (Comp.value c
              ++ "," ++ String.concat ","
                          (String " " (Comp.value c')
                             :: map (λ x, String " " (Comp.value x)) cs)).
      destruct cs; done. }
    rewrite (Hgen (Some <$> c :: cs)).
    + f_equal. apply (omap_id_some (c :: cs)).
    + rewrite fmap_cons. constructor.
      * destruct c; code_piece.
      * apply Forall2_fmap_l, Forall2_fmap_r, Forall_Forall2_diag, Forall_forall.
        intros x _. destruct x; code_piece.
  - intros pieces Hnc Hbad. unfold _parse_compartments.
    assert (pieces ≠ []) as Hne by (intros ->; by apply Exists_nil in Hbad).
    destruct (String.eqb_spec (PyStr.join "," pieces) EmptyString) as [He|_].
    + apply join_empty in He as [-> | ->]; [done|].
      apply Exists_cons in Hbad as [[Hb _]|Hb]; [done|by apply Exists_nil in Hb].
    + rewrite split_join by done. clear Hnc Hne.
      induction Hbad as [p pieces [Hp Hv]|p pieces Hbad IH]; simpl.
      * apply String.eqb_neq in Hp as ->. simpl. by rewrite Hv.
      * destruct (negb (strip p =? "")%string); simpl; [|done].
        rewrite IH. by destruct (compartment_of_value (strip p)).
Qed.

End Parse.

(** ** Redaction: the redacted payload *)

Section SecondPass.

Import RedactionEngine.

Lemma write_non_dict (parts : list string) (v current : pyval) :
  (∀ d, current ≠ VDict d) → write parts v current = current.
Proof.
  intros Hnd. unfold write. destruct parts as [|head tail]; [done|].
  simpl. destruct (PyStr.endswith head "[*]");
    destruct current as [| | | | |d]; try done; by destruct (Hnd d).
Qed.

Lemma write_dict (head : string) (tail : list string) (v : pyval)
    (d : list (string * pyval)) :
  write (head :: tail) v (VDict d)
  = match Dict.get (segment_key head) d with
    | Some child =>
        VDict (Dict.set (segment_key head) (child_write head tail v child) d)
    | None => VDict d
    end.
Proof.
  unfold write, child_write, segment_key. cbn [_set_path_redacted].
  destruct (PyStr.endswith head "[*]").
  - destruct (Dict.get _ d) as [child|] eqn:Hget; [|done].
    destruct child; cbn [snd]; try by rewrite dict_set_same.
    by rewrite visit_items_map.
  - destruct (Dict.get head d) as [child|] eqn:Hget; [|done].
    by destruct tail.
Qed.

Lemma write_list (parts : list string) (v current : pyval) (items : list pyval) :
  write parts v current = VList items → current = VList items.
Proof.
  destruct current as [| | | | |d]; try (by rewrite write_non_dict).
  destruct parts as [|head tail]; [done|]. rewrite write_dict.
  by destruct (Dict.get _ d).
Qed.

Lemma substring_split (k : nat) (s : string) :
  (k ≤ String.length s)%nat →
  String.substring 0 k s ++ String.substring k (String.length s - k) s = s.
Proof.
  revert s. induction k as [|k IH]; intros s Hk.
  - rewrite Nat.sub_0_r, substring_whole. by destruct s.
  - destruct s as [|c s]; simpl in Hk; [lia|].
    change (String c (String.substring 0 k s
                      ++ String.substring k (String.length s - k) s)
            = String c s).
    rewrite IH; [done|lia].
Qed.

Lemma wildcard_segment (head : string) :
  PyStr.endswith head "[*]" = true → head = segment_key head ++ "[*]".
Proof.
  intros Hw. unfold segment_key. rewrite Hw. unfold PyStr.endswith in Hw.
  apply andb_true_iff in Hw as [Hlen Heq].
  apply Nat.leb_le in Hlen. apply String.eqb_eq in Heq.
  change (String.length "[*]") with 3 in *.
  pose proof (substring_split (String.length head - 3) head) as Hs.
  replace (String.length head - (String.length head - 3)) with 3 in Hs by lia.
  rewrite Heq in Hs. symmetry. apply Hs. lia.
Qed.

Lemma fixed_entry (key : string) (new child : pyval) (d : list (string * pyval)) :
  Dict.get key d = Some child → VDict (Dict.set key new d) = VDict d → new = child.
Proof.
  intros Hget [= Heq]. pose proof (dict_get_set key new d) as H.
  rewrite Heq, Hget in H. by injection H.
Qed.

Lemma map_fixed {A} (f : A → A) (l : list A) (x : A) :
  map f l = l → In x l → f x = x.
Proof.
  induction l as [|a l IH]; simpl; [done|].
  intros [= Ha Hl] [<-|Hin]; [done|by apply IH].
Qed.

Lemma child_write_preserved (head head' : string) (tail tail' : list string)
    (u w : string) (child : pyval) :
  segment_key head = segment_key head' →
  (head' :: tail' = head :: tail → w = u) →
  (∀ q y, (q = tail → w = u) → write tail (VStr u) y = y →
          write tail (VStr u) (write q (VStr w) y) = write q (VStr w) y) →
  child_write head tail (VStr u) child = child →
  child_write head tail (VStr u) (child_write head' tail' (VStr w) child)
  = child_write head' tail' (VStr w) child.
Proof.
  intros Hkey Hsame IH Hfix.
  assert (PyStr.endswith head "[*]" = PyStr.endswith head' "[*]" → head = head')
    as Hhead.
  { intros Hw. destruct (PyStr.endswith head "[*]") eqn:Hh.
    - rewrite (wildcard_segment head Hh), (wildcard_segment head') by done.
      by rewrite Hkey.
    - symmetry in Hw. unfold segment_key in Hkey. by rewrite Hh, Hw in Hkey. }
  unfold child_write in *.
  destruct (PyStr.endswith head "[*]") eqn:Hh,
           (PyStr.endswith head' "[*]") eqn:Hh'.
  - specialize (Hhead eq_refl) as <-.
    destruct child as [| | | |items|]; try done.
    injection Hfix as Hfix. f_equal. rewrite map_map. apply map_ext_in.
    intros item Hin. apply IH; [intros ->; by apply Hsame|].
    by apply (map_fixed _ items).
  - destruct tail' as [|seg' tail']; [done|].
    destruct (write (seg' :: tail') (VStr w) child) as [| | | |items|] eqn:HX;
      try done.
    apply write_list in HX as ->. exact Hfix.
  - destruct tail as [|seg tail].
    + by subst child.
    + destruct child as [| | | |items|]; try exact Hfix.
      by rewrite write_non_dict.
  - specialize (Hhead eq_refl) as <-.
    destruct tail as [|seg tail], tail' as [|seg' tail'].
    + by rewrite (Hsame eq_refl).
    + subst child. by rewrite write_non_dict.
    + by rewrite write_non_dict.
    + apply IH; [intros Heq; apply Hsame; by rewrite Heq|exact Hfix].
Qed.

Lemma write_fixed_preserved (p q : list string) (u w : string) (y : pyval) :
  (q = p → w = u) →
  write p (VStr u) y = y →
  write p (VStr u) (write q (VStr w) y) = write q (VStr w) y.
Proof.
  revert q y. induction p as [|head tail IH]; intros q y Hsame Hfix; [done|].
  destruct q as [|head' tail']; [exact Hfix|].
  destruct y as [| | | | |d];
    try (rewrite (write_non_dict (head' :: tail')) by done; exact Hfix).
  rewrite (write_dict head' tail').
  destruct (Dict.get (segment_key head') d) as [c'|] eqn:Hget'; [|exact Hfix].
  rewrite write_dict. rewrite write_dict in Hfix.
  destruct (decide (segment_key head = segment_key head')) as [Hk|Hk].
  - rewrite Hk, dict_get_set, dict_set_set. rewrite Hk, Hget' in Hfix.
    do 2 f_equal. apply child_write_preserved; [done|done| |].
    + intros q' y' Hq Hy. by apply IH.
    + by eapply fixed_entry.
  - rewrite dict_get_set_ne by done.
    destruct (Dict.get (segment_key head) d) as [c|] eqn:Hget; [|done].
    rewrite (fixed_entry _ _ _ _ Hget Hfix). f_equal.
    apply dict_set_same. by rewrite dict_get_set_ne.
Qed.


Lemma split_aux_nonempty (sep : ascii) (acc s : string) :
  PyStr.split_aux sep acc s ≠ [].
Proof.
  revert acc. induction s as [|c s IH]; intros acc; simpl; [done|].
  destruct (Ascii.eqb c sep); [done|apply IH].
Qed.

Lemma rev_app_app (a b s : string) :
  String.rev_app a b ++ s = String.rev_app a (b ++ s).
Proof. revert b. induction a as [|c a IH]; intros b; simpl; [done|]. by rewrite IH. Qed.

Lemma join_split_aux (sep : ascii) (acc s : string) :
  PyStr.join (String sep EmptyString) (PyStr.split_aux sep acc s)
  = String.rev acc ++ s.
Proof.
  unfold PyStr.join. revert acc.
  induction s as [|c s IH]; intros acc; simpl.
  - by rewrite string_app_nil_r.
  - destruct (Ascii.eqb_spec c sep) as [->|Hc].
    + specialize (IH EmptyString).
      destruct (PyStr.split_aux sep EmptyString s) as [|piece pieces] eqn:Hs;
        [by apply split_aux_nonempty in Hs|].
      change (String.rev acc ++ String sep (String.concat (String sep EmptyString)
                                              (piece :: pieces))
              = String.rev acc ++ String sep s).
      by rewrite IH.
    + rewrite IH. unfold String.rev. simpl. by rewrite !rev_app_app.
Qed.

Lemma split_inj (sep : ascii) (s1 s2 : string) :
  PyStr.split sep s1 = PyStr.split sep s2 → s1 = s2.
Proof.
  intros Heq. pose proof (join_split_aux sep EmptyString s1) as H1.
  pose proof (join_split_aux sep EmptyString s2) as H2.
  unfold PyStr.split in Heq. rewrite Heq, H2 in H1. exact (eq_sym H1).
Qed.

Lemma apply_redaction_writes (self : AccessControlEngine.t) (data : pyval)
    (user_clearance : ClassificationLevel) (user_compartments : list Compartment) :
  AccessControlEngine.apply_redaction self data user_clearance user_compartments
  = foldl (λ y pu, write pu.1 (VStr pu.2) y) data
      (omap (target (AccessControlEngine.redaction_engine self) user_clearance
               user_compartments)
         (filter (λ r, FieldRedactionRule.should_redact r user_clearance
                         user_compartments = true)
            (ClassificationPolicy.field_redaction_rules
               (policy (AccessControlEngine.redaction_engine self))))).
Proof.
  unfold AccessControlEngine.apply_redaction.
  rewrite compute_obligations_filters.
  set (e := AccessControlEngine.redaction_engine self).
  replace (apply_obligations e data (_ ++ _) user_clearance user_compartments)
    with (apply_obligations e
            (apply_obligations e data
               (map field_obligation
                  (filter (λ r, FieldRedactionRule.should_redact r user_clearance
                                  user_compartments = true)
                     (ClassificationPolicy.field_redaction_rules (policy e))))
               user_clearance user_compartments)
            (map portion_obligation
               (filter (λ r, PortionRedactionRule.should_redact r user_clearance
                               user_compartments = true)
                  (ClassificationPolicy.portion_redaction_rules (policy e))))
            user_clearance user_compartments)
    by (unfold apply_obligations; by rewrite foldl_app).
  rewrite apply_obligations_portion. unfold apply_obligations. revert data.
  induction (filter _ _) as [|rule rules IH]; intros data; [done|].
  cbn [map foldl omap list_omap]. rewrite IH. clear IH.
  cbn [field_obligation AccessDecisionObligation.obligation_type
       AccessDecisionObligation.resource_field].
  unfold target at 2.
  destruct (String.eqb (FieldRedactionRule.field_path rule) EmptyString);
    cbn [negb]; [done|].
  rewrite redact_field_single_write. by destruct (last _).
Qed.

Lemma foldl_writes_fixed (ws : list (list string * string)) (x : pyval) :
  (∀ p u w, (p, u) ∈ ws → (p, w) ∈ ws → w = u) →
  ∀ p u, (p, u) ∈ ws →
    write p (VStr u) (foldl (λ y pu, write pu.1 (VStr pu.2) y) x ws)
    = foldl (λ y pu, write pu.1 (VStr pu.2) y) x ws.
Proof.
  induction ws as [|[q w] ws IH] using rev_ind; intros Hcons p u Hin.
  - by apply elem_of_nil in Hin.
  - rewrite foldl_snoc. cbn [fst snd].
    apply elem_of_app in Hin as [Hin|Hin].
    + apply write_fixed_preserved.
      * intros ->. apply (Hcons p); apply elem_of_app; [by left|right; by left].
      * apply IH; [|done]. intros p' u' w' H1 H2.
        apply (Hcons p'); apply elem_of_app; by left.
    + apply list_elem_of_singleton in Hin as [= -> ->]. apply write_twice.
Qed.

Lemma foldl_writes_id (ws : list (list string * string)) (y : pyval) :
  (∀ p u, (p, u) ∈ ws → write p (VStr u) y = y) →
  foldl (λ y pu, write pu.1 (VStr pu.2) y) y ws = y.
Proof.
  induction ws as [|[p u] ws IH]; intros Hfix; simpl; [done|].
  rewrite (Hfix p u) by by left. apply IH. intros p' u' Hin. apply Hfix. by right.
Qed.

Lemma targets_consistent (self : RedactionEngine.t)
    (user_clearance : ClassificationLevel) (user_compartments : list Compartment)
    (rules : list FieldRedactionRule.t) (p : list string) (u w : string) :
  (p, u) ∈ omap (target self user_clearance user_compartments) rules →
  (p, w) ∈ omap (target self user_clearance user_compartments) rules →
  w = u.
Proof.
  intros Hu Hw.
  apply list_elem_of_omap in Hu as (r1 & _ & H1).
  apply list_elem_of_omap in Hw as (r2 & _ & H2).
  unfold target in H1, H2.
  destruct (String.eqb (FieldRedactionRule.field_path r1) EmptyString); [done|].
  destruct (String.eqb (FieldRedactionRule.field_path r2) EmptyString); [done|].
  apply fmap_Some in H1 as (a & Ha & [= Hp Hu]).
  apply fmap_Some in H2 as (b & Hb & [= Hq Hw]).
  rewrite Hp in Hq. apply split_inj in Hq. rewrite <- Hq in Hb.
  rewrite Ha in Hb. injection Hb as <-. by rewrite Hu, Hw.
Qed.

(** X20: redaction is idempotent.  Redacting, for the same subject, a
    payload that the engine has already redacted for this subject returns
    it as it is, whatever the policy: rules that share a path, rules whose
    path runs through an entry that another rule masks, and wildcards
    included. *)
Theorem redaction_is_idempotent (self : AccessControlEngine.t) (data : pyval)
    (user_clearance : ClassificationLevel) (user_compartments : list Compartment) :
  AccessControlEngine.apply_redaction self
    (AccessControlEngine.apply_redaction self data user_clearance
       user_compartments)
    user_clearance user_compartments
  = AccessControlEngine.apply_redaction self data user_clearance
      user_compartments.
Proof.
  rewrite !apply_redaction_writes. apply foldl_writes_id. intros p u Hin.
  apply foldl_writes_fixed; [|done].
  intros p' u' w'. apply targets_consistent.
Qed.

Lemma flat_map_nonempty {A B} (f : A → list B) (l : list A) :
  flat_map f l ≠ [] ↔ ∃ x, In x l ∧ f x ≠ [].
Proof.
  induction l as [|a l IH]; simpl; [naive_solver|].
  split.
  - intros Hne. destruct (f a) eqn:Hfa.
    + apply IH in Hne as (x & Hx & Hf). eauto.
    + exists a. split; [by left|]. by rewrite Hfa.
  - intros (x & [<-|Hx] & Hf) Happ; apply app_eq_nil in Happ as [H1 H2];
      [done|]. apply IH in H2; [done|eauto].
Qed.

Lemma flat_map_replicate {A B} (f : A → list B) (g : A → A) (v : B) (l : list A) :
  (∀ x, f (g x) = replicate (length (f x)) v) →
  flat_map f (map g l) = replicate (length (flat_map f l)) v.
Proof.
  intros H. induction l as [|a l IH]; simpl; [done|].
  by rewrite length_app, replicate_add, H, IH.
Qed.

Lemma flag_designated (parts : list string) (v current : pyval) :
  (_set_path_redacted parts v current).1 = true ↔ designated parts current ≠ [].
Proof.
  revert current. induction parts as [|head tail IH]; intros current; [done|].
  cbn [_set_path_redacted designated]. unfold segment_key.
  destruct (PyStr.endswith head "[*]").
  - destruct current as [| | | | |d]; try done.
    destruct (Dict.get (PyStr.drop_last 3 head) d) as [[| | | |items|]|]; try done.
    rewrite visit_items_map. cbn [fst].
    rewrite existsb_exists, flat_map_nonempty.
    split; intros (item & Hin & Hf); exists item; (split; [done|]); by apply IH.
  - destruct current as [| | | | |d]; try done.
    destruct (Dict.get head d) as [child|]; [|done].
    destruct tail as [|seg tail']; [done|]. apply IH.
Qed.

Lemma designated_after_write (parts : list string) (v current : pyval) :
  designated parts (write parts v current)
  = replicate (length (designated parts current)) v.
Proof.
  revert current. induction parts as [|head tail IH]; intros current; [done|].
  destruct current as [| | | | |d]; try (by rewrite write_non_dict).
  rewrite write_dict. cbn [designated].
  destruct (Dict.get (segment_key head) d) as [child|] eqn:Hget.
  - rewrite dict_get_set. unfold child_write.
    destruct (PyStr.endswith head "[*]").
    + destruct child as [| | | |items|]; try done.
      apply flat_map_replicate. apply IH.
    + destruct tail as [|seg tail']; [done|]. apply IH.
  - cbn [designated]. by rewrite Hget.
Qed.

Lemma fixed_designated (parts : list string) (v current : pyval) :
  write parts v current = current ↔ Forall (λ x, x = v) (designated parts current).
Proof.
  revert current. induction parts as [|head tail IH]; intros current; [done|].
  destruct current as [| | | | |d]; try (by rewrite write_non_dict).
  rewrite write_dict. cbn [designated].
  destruct (Dict.get (segment_key head) d) as [child|] eqn:Hget; [|done].
  assert (VDict (Dict.set (segment_key head) (child_write head tail v child) d)
          = VDict d ↔ child_write head tail v child = child) as ->.
  { split; [by apply fixed_entry|]. intros ->. by rewrite dict_set_same. }
  unfold child_write. destruct (PyStr.endswith head "[*]").
  - destruct child as [| | | |items|]; try done.
    split.
    + intros [= Hmap]. apply Forall_forall. intros x Hx.
      apply list_elem_of_In, in_flat_map in Hx as (item & Hin & Hx).
      assert (Forall (λ x, x = v) (designated tail item)) as HF
        by (apply IH; by apply (map_fixed _ items)).
      rewrite Forall_forall in HF. by apply HF, list_elem_of_In.
    + intros HF. f_equal. rewrite <- (map_id items) at 2.
      apply map_ext_in. intros item Hin. apply IH, Forall_forall.
      intros x Hx. rewrite Forall_forall in HF. apply HF.
      apply list_elem_of_In, in_flat_map. exists item.
      split; [done|by apply list_elem_of_In].
  - destruct tail as [|seg tail']; [|apply IH].
    split; [intros ->; by constructor|]. by intros [-> _]%Forall_cons.
Qed.

(** X21: what a call of [_set_path_redacted] reaches.  The flag is true
    exactly when the path designates an entry of the payload, whatever the
    value to write; after the call the path designates as many entries as
    before and each holds the value; and the call leaves the payload as
    it was exactly when every entry that the path designates held the
    value already. *)
Theorem write_reaches_what_the_path_designates (parts : list string)
    (v current : pyval) :
  ((_set_path_redacted parts v current).1 = true ↔ designated parts current ≠ [])
  ∧ designated parts (_set_path_redacted parts v current).2
    = replicate (length (designated parts current)) v
  ∧ ((_set_path_redacted parts v current).2 = current ↔
       Forall (λ x, x = v) (designated parts current)).
Proof.
  split; [apply flag_designated|].
  split; [apply designated_after_write|apply fixed_designated].
Qed.

(** X22: a rule that fires leaves nothing to read.  In the redacted
    payload, every entry that the path of a firing rule designates holds
    the replacement of the last rule of the policy that bears this path
    and fires, which is one of the three masks; this holds whatever the
    other rules of the policy did to the payload before or after. *)
Theorem fired_rule_leaves_masks_only (self : AccessControlEngine.t)
    (data : pyval) (user_clearance : ClassificationLevel)
    (user_compartments : list Compartment) (rule : FieldRedactionRule.t) :
  rule ∈ ClassificationPolicy.field_redaction_rules
           (policy (AccessControlEngine.redaction_engine self)) →
  FieldRedactionRule.should_redact rule user_clearance user_compartments = true →
  FieldRedactionRule.field_path rule ≠ EmptyString →
  let redacted :=
    AccessControlEngine.apply_redaction self data user_clearance
      user_compartments in
  let entries :=
    designated (PyStr.split "." (FieldRedactionRule.field_path rule)) redacted in
  (∃ r,
     last (filter (λ r, FieldRedactionRule.field_path r
                        = FieldRedactionRule.field_path rule
                        ∧ FieldRedactionRule.should_redact r user_clearance
                            user_compartments = true)
             (ClassificationPolicy.field_redaction_rules
                (policy (AccessControlEngine.redaction_engine self))))
     = Some r
     ∧ Forall (λ x, x = VStr (FieldRedactionRule.apply_redaction r VNone)) entries)
  ∧ Forall is_mask entries.
Proof.
  intros Hin Hfires Hpath. cbv zeta.
  set (e := AccessControlEngine.redaction_engine self).
  set (same := filter _ _).
  assert (is_Some (last same)) as [r Hr].
  { apply last_is_Some. intros Hnil.
    assert (rule ∈ same) as Hrule by (apply list_elem_of_filter; by split).
    rewrite Hnil in Hrule. by apply elem_of_nil in Hrule. }
  assert (Forall (λ x, x = VStr (FieldRedactionRule.apply_redaction r VNone))
            (designated (PyStr.split "." (FieldRedactionRule.field_path rule))
               (AccessControlEngine.apply_redaction self data user_clearance
                  user_compartments))) as HF.
  { apply fixed_designated. rewrite apply_redaction_writes.
    apply foldl_writes_fixed.
    - intros p u w. apply targets_consistent.
    - apply list_elem_of_omap. exists rule. split.
      + apply list_elem_of_filter. by split.
      + unfold target. apply String.eqb_neq in Hpath as ->.
        fold e. fold same. by rewrite Hr. }
  split; [by exists r|].
  eapply Forall_impl; [exact HF|]. intros x ->. apply replacement_is_mask.
Qed.

End SecondPass.

(** ** Instances on the inputs of the tests *)

(** A resource that requires one of two roles, and an analyst. *)
Lemma allowed_iff_every_check_passes_witness :
  ∃ d,
    AccessControlEngine.make_access_decision Fixture.engine 1%N 0%Z 7%N SECRET
      [NOFORN] ["analyst"] true false SECRET [NOFORN]
      (Some [("program", VStr "aegis");
             ("required_roles", VList [VStr "auditor"; VStr "analyst"])])
      "trusted" true = Returns d
    ∧ AccessDecision.allowed d = true.
Proof.
  destruct (allowed_iff_every_check_passes Fixture.engine 1%N 0%Z 7%N SECRET
              [NOFORN] ["analyst"] true false SECRET [NOFORN]
              (Some [("program", VStr "aegis");
                     ("required_roles", VList [VStr "auditor"; VStr "analyst"])])
              "trusted" true (Some ["auditor"; "analyst"]) eq_refl)
    as (d & Hd & Hiff).
  exists d. split; [exact Hd|]. apply Hiff.
  split; [reflexivity|]. split; [reflexivity|]. split; [discriminate|].
  split; [done|]. intros rs [= <-]. right. exists "analyst".
  split; [apply list_elem_of_In; right; by left|apply list_elem_of_In; by left].
Defined.

(** The test [test_deny_inactive_session]: the reason names the session,
    the second check. *)
Lemma reason_names_first_failed_check_witness :
  let d :=
    AccessControlEngine.decision_with_defaults 1%N 0%Z false
      "Session is not active" SECRET [NOFORN] UNCLASSIFIED [] in
  AccessControlEngine.make_access_decision Fixture.engine 1%N 0%Z 7%N SECRET
    [NOFORN] ["analyst"] true false UNCLASSIFIED [] None "trusted" false
  = Returns d
  ∧ (AccessDecision.reason d = "Session is not active" ↔
       false = false ∧ false = false).
Proof.
  split; [reflexivity|].
  exact (proj1 (proj2 (reason_names_first_failed_check Fixture.engine 1%N 0%Z
                         7%N SECRET [NOFORN] ["analyst"] true false UNCLASSIFIED
                         [] None "trusted" false _ eq_refl))).
Defined.

(** The policy of the redaction tests, for a subject cleared to CUI and
    for one cleared to SECRET with NOFORN. *)
Lemma redaction_decreases_with_privilege_witness :
  (Level.numeric_value CUI ≤ Level.numeric_value SECRET)%Z
  ∧ [] ⊆ [NOFORN]
  ∧ RedactionEngine.compute_obligations
      {| RedactionEngine.policy := Fixture.policy_with_redaction |} SECRET [NOFORN]
    `sublist_of`
    RedactionEngine.compute_obligations
      {| RedactionEngine.policy := Fixture.policy_with_redaction |} CUI [].
Proof.
  assert ((Level.numeric_value CUI ≤ Level.numeric_value SECRET)%Z) as Hrank
    by discriminate.
  assert (([] : list Compartment) ⊆ [NOFORN]) as Hsub
    by (intros x Hx; by apply elem_of_nil in Hx).
  split; [exact Hrank|]. split; [exact Hsub|].
  exact (proj2 (proj2 (redaction_decreases_with_privilege
                         {| RedactionEngine.policy := Fixture.policy_with_redaction |}
                         CUI SECRET [] [NOFORN] Hrank Hsub))).
Defined.

(** A subject cleared to TS//SCI and holding HUMINT sees the incident of
    the tests as it is. *)
Lemma cleared_subject_sees_the_original_witness :
  AccessControlEngine.apply_redaction
    (AccessControlEngine.init Fixture.policy_with_redaction None)
    Fixture.incident TS_SCI [HUMINT]
  = Fixture.incident.
Proof.
  apply (cleared_subject_sees_the_original
           (AccessControlEngine.init Fixture.policy_with_redaction None)
           Fixture.incident TS_SCI [HUMINT]).
  intros rule Hin. apply list_elem_of_In in Hin.
  destruct Hin as [<-|[<-|[]]]; reflexivity.
Defined.

(** The policy of the tests and a policy with the same field rules, no
    portion rule and [is_enforced] unset. *)
Lemma payload_depends_on_field_rules_only_witness :
  AccessControlEngine.apply_redaction
    (AccessControlEngine.init Fixture.policy_with_redaction None)
    Fixture.incident SECRET [NOFORN]
  = AccessControlEngine.apply_redaction
      (AccessControlEngine.init
         (Fixture.with_rules (Fixture.policy_named "Other")
            [Fixture.user_email_rule; Fixture.affected_users_rule] [] false)
         (Some "k"))
      Fixture.incident SECRET [NOFORN].
Proof.
  exact (payload_depends_on_field_rules_only
           (AccessControlEngine.init Fixture.policy_with_redaction None)
           (AccessControlEngine.init
              (Fixture.with_rules (Fixture.policy_named "Other")
                 [Fixture.user_email_rule; Fixture.affected_users_rule] [] false)
              (Some "k"))
           Fixture.incident SECRET [NOFORN] eq_refl).
Defined.

(** The banner of the aggregation test, signed. *)
Lemma signature_can_be_recomputed_witness :
  let r := ClassificationAggregationResult.aggregate Fixture.tagged 0%Z
             Fixture.banner_entities (Some "k") in
  "k" ≠ EmptyString
  ∧ ClassificationAggregationResult.signature r
    = Some (ClassificationAggregationResult.compute_signature Fixture.tagged r "k").
Proof.
  assert ("k" ≠ EmptyString) as Hkey by discriminate.
  split; [exact Hkey|].
  exact (proj1 (signature_can_be_recomputed Fixture.tagged 0%Z
                  Fixture.banner_entities "k" Hkey)).
Defined.

(** Headers as a client may send them. *)
Example parse_compartments_examples :
  DemoApi._parse_compartments (Some "NOFORN,HUMINT") = Some [NOFORN; HUMINT]
  ∧ DemoApi._parse_compartments (Some " TK , ,NOFORN,") = Some [TALENT_KEYHOLE; NOFORN]
  ∧ DemoApi._parse_compartments (Some " ") = Some []
  ∧ DemoApi._parse_compartments (Some "NOFORN,noforn") = None.
Proof. repeat split; vm_compute; reflexivity. Qed.

(** The wildcard rule of the redaction tests fires for a subject cleared
    to SECRET who holds NOFORN only: every address of the incident is
    masked. *)
Lemma fired_rule_leaves_masks_only_witness :
  Forall is_mask
    (designated ["incident"; "affected_users[*]"; "email"]
       (AccessControlEngine.apply_redaction
          (AccessControlEngine.init Fixture.policy_with_redaction None)
          Fixture.incident SECRET [NOFORN])).
Proof.
  assert (Fixture.affected_users_rule
          ∈ ClassificationPolicy.field_redaction_rules
              (RedactionEngine.policy
                 (AccessControlEngine.redaction_engine
                    (AccessControlEngine.init Fixture.policy_with_redaction None))))
    as Hin by (apply list_elem_of_In; right; by left).
  assert (FieldRedactionRule.field_path Fixture.affected_users_rule ≠ EmptyString)
    as Hpath by discriminate.
  exact (proj2 (fired_rule_leaves_masks_only
                  (AccessControlEngine.init Fixture.policy_with_redaction None)
                  Fixture.incident SECRET [NOFORN] Fixture.affected_users_rule
                  Hin eq_refl Hpath)).
Defined.

(** An analyst cleared to SECRET is allowed a SECRET resource that
    requires the role; so is a lead analyst cleared to TOP SECRET who
    holds one more compartment, on an untrusted device. *)
Lemma more_privilege_keeps_access_witness :
  ∃ d',
    AccessControlEngine.make_access_decision Fixture.engine 2%N 1%Z 8%N
      TOP_SECRET [NOFORN; HUMINT] ["analyst"; "lead"] false false SECRET [NOFORN]
      (Some [("required_roles", VList [VStr "analyst"])]) "untrusted" true
    = Returns d'
    ∧ AccessDecision.allowed d' = true.
Proof.
  eapply (more_privilege_keeps_access Fixture.engine 1%N 2%N 0%Z 1%Z 7%N 8%N
            SECRET TOP_SECRET [NOFORN] [NOFORN; HUMINT] ["analyst"]
            ["analyst"; "lead"] true false false SECRET [NOFORN]
            (Some [("required_roles", VList [VStr "analyst"])])
            "trusted" "untrusted" true).
  - reflexivity.
  - reflexivity.
  - discriminate.
  - intros c Hc. apply list_elem_of_singleton in Hc as ->. by left.
  - intros r Hr. apply list_elem_of_singleton in Hr as ->. by left.
Defined.
